(** * bartseq.read_tagger: barcode index and read tagging

    A shallow embedding of [src/bartseq/read_tagger/__init__.py]:
    the mismatch expansion [get_mismatches], the collision-aware index
    [get_all_barcodes], the tagger [ReadTagger] with [search_barcode] and
    [tag_read], and [get_tagger].

    Python values are modelled as follows.
    - [str] is a list of characters, [len] gives a Python int ([Z]).
    - A [dict] with string keys is an association list in insertion order
      (the order Python dicts iterate in), updated in place by [dict_set].
    - A [set] is a duplicate-free list; only membership is observed.
    - An exception is a [Raise] result; a generator is the list of values
      it yields together with the exception that ends it, if any.
    - [warnings.warn] appends to a log that is returned with the result. *)

From Stdlib Require Import String Ascii List ZArith Lia Bool.
Import ListNotations.

Set Implicit Arguments.
Open Scope string_scope.
Open Scope list_scope.
Open Scope Z_scope.

(** ** Python strings *)

Module Py.

Definition str := list ascii.

(** A string literal. *)
Definition py (s : string) : str := list_ascii_of_string s.

Definition len (s : str) : Z := Z.of_nat (length s).

Fixpoint str_eqb (a b : str) : bool :=
  match a, b with
  | [], [] => true
  | x :: a', y :: b' => Ascii.eqb x y && str_eqb a' b'
  | _, _ => false
  end.

(** An index of a slice: negative indices count from the end, and the
    result is clamped to [0, n]. *)
Definition slice_index (n : Z) (i : option Z) (default : Z) : Z :=
  match i with
  | None => default
  | Some i =>
      let i := if i <? 0 then i + n else i in
      Z.max 0 (Z.min n i)
  end.

(** [s[lo:hi]]; never raises. *)
Definition slice (s : str) (lo hi : option Z) : str :=
  let n := len s in
  let a := slice_index n lo 0 in
  let b := slice_index n hi n in
  firstn (Z.to_nat (b - a)) (skipn (Z.to_nat a) s).

(** [range(n)] for a length [n]. *)
Definition range (n : nat) : list nat := seq 0 n.

(** ** Exceptions and generators *)

Inductive exn :=
| TypeError
| IndexError
| AttributeError
| KeyError (k : str).

Inductive result (A : Type) :=
| Ok (a : A)
| Raise (e : exn).

Arguments Ok {A} a.
Arguments Raise {A} e.

Definition bind {A B} (r : result A) (k : A -> result B) : result B :=
  match r with
  | Ok a => k a
  | Raise e => Raise e
  end.

(** A finite generator, fully iterated: what it yields, and the exception
    that ends the iteration if there is one. *)
Record gen (A : Type) := Gen { yields : list A; stop : option exn }.

Definition gyield {A} (a : A) : gen A := Gen [a] None.
Definition graise {A} (e : exn) : gen A := Gen [] (Some e).
Definition gskip {A} : gen A := Gen [] None.

Definition gseq {A} (g1 g2 : gen A) : gen A :=
  match stop g1 with
  | Some _ => g1
  | None => Gen (yields g1 ++ yields g2) (stop g2)
  end.

Fixpoint gfor {A B} (l : list A) (body : A -> gen B) : gen B :=
  match l with
  | [] => gskip
  | x :: r => gseq (body x) (gfor r body)
  end.

(** ** Dictionaries and sets *)

Section Dict.
Variable V : Type.

Definition dict := list (str * V).

Fixpoint dict_get (d : dict) (k : str) : option V :=
  match d with
  | [] => None
  | (k', v) :: r => if str_eqb k' k then Some v else dict_get r k
  end.

(** [d[k] = v]: an existing key keeps its place. *)
Fixpoint dict_set (d : dict) (k : str) (v : V) : dict :=
  match d with
  | [] => [(k, v)]
  | (k', v') :: r =>
      if str_eqb k' k then (k', v) :: r else (k', v') :: dict_set r k v
  end.

(** [d[k]], raising [KeyError] on a missing key. *)
Definition dict_getitem (d : dict) (k : str) : result V :=
  match dict_get d k with
  | Some v => Ok v
  | None => Raise (KeyError k)
  end.

(** [del d[k]], raising [KeyError] on a missing key. *)
Fixpoint dict_del (d : dict) (k : str) : result dict :=
  match d with
  | [] => Raise (KeyError k)
  | (k', v) :: r =>
      if str_eqb k' k then Ok r
      else bind (dict_del r k) (fun r' => Ok ((k', v) :: r'))
  end.

Definition keys (d : dict) : list str := map fst d.
Definition items (d : dict) : list (str * V) := d.

(** The well-formed dictionaries: no key twice. *)
Definition dict_wf (d : dict) : Prop := NoDup (keys d).
End Dict.

End Py.
Import Py.

Notation "x <- r ;; k" := (bind r (fun x => k))
  (at level 61, r at next level, right associativity).
Notation "g1 ;;; g2" := (gseq g1 g2) (at level 62, right associativity).

(** ** get_mismatches *)

(** [BASES = set('ATGC')]. The iteration order of a Python set is not
    specified; the order of the literal is taken here. *)
Definition BASES : list ascii := ["A"; "T"; "G"; "C"]%char.

(** [s - {c}] *)
Definition set_remove (s : list ascii) (c : ascii) : list ascii :=
  filter (fun b => negb (Ascii.eqb b c)) s.

(** [barcode[i]] *)
Definition char_at (s : str) (i : nat) (k : ascii -> gen str) : gen str :=
  match nth_error s i with
  | Some c => k c
  | None => graise IndexError
  end.

Definition zi (i : nat) : option Z := Some (Z.of_nat i).

Definition get_mismatches (barcode : str) (max_mm : Z) : gen str :=
  gyield barcode ;;;
  (if negb (max_mm =? 1) then graise TypeError else gskip) ;;;
  (if (max_mm =? 1) then
     gfor (range (length barcode)) (fun i =>
       char_at barcode i (fun c =>
         gfor (set_remove BASES c) (fun mismatch =>
           gyield (slice barcode None (zi i) ++ [mismatch]
                   ++ slice barcode (zi (i + 1)%nat) None))))
   else gskip).

(** ** get_all_barcodes *)

(** Truth value of an optional string: [None] and [''] are false. *)
Definition truthy (o : option str) : bool :=
  match o with
  | Some (_ :: _) => true
  | _ => false
  end.

(** Sets of pairs of barcodes, the values of the blacklist. *)
Definition pair_set := list (str * str).

Definition pair_eqb (p q : str * str) : bool :=
  str_eqb (fst p) (fst q) && str_eqb (snd p) (snd q).

Definition pair_mem (p : str * str) (s : pair_set) : bool :=
  existsb (pair_eqb p) s.

Definition pair_add (p : str * str) (s : pair_set) : pair_set :=
  if pair_mem p s then s else s ++ [p].

(** One call of [warn]: the pattern and the two barcodes named in the
    message. *)
Record warning := Warn { w_pattern : str; w_previous : str; w_barcode : str }.

(** The local variables of [get_all_barcodes] and the warnings emitted so
    far. *)
Record index_state := IndexState {
  st_found : dict str;
  st_blacklist : dict pair_set;
  st_warnings : list warning
}.

(** [blacklist.setdefault(pattern, set())] *)
Definition setdefault (bl : dict pair_set) (pattern : str) : pair_set :=
  match dict_get bl pattern with
  | Some s => s
  | None => []
  end.

(** The body of the inner loop, for one [pattern] of [barcode]. *)
Definition claim_pattern (barcode : str) (st : index_state) (pattern : str)
  : index_state :=
  let previous_barcode := dict_get (st_found st) pattern in
  let st :=
    match previous_barcode with
    | Some previous =>
        if truthy previous_barcode then
          let bl_item := setdefault (st_blacklist st) pattern in
          let bl_item := pair_add (previous, barcode) bl_item in
          let bl_item := pair_add (barcode, previous) bl_item in
          IndexState (st_found st)
            (dict_set (st_blacklist st) pattern bl_item)
            (st_warnings st ++ [Warn pattern previous barcode])
        else st
    | None => st
    end in
  IndexState (dict_set (st_found st) pattern barcode)
    (st_blacklist st) (st_warnings st).

(** A [for] loop over a generator: the body runs for every value yielded
    before the generator stops or raises. *)
Definition for_gen {A S} (g : gen A) (body : S -> A -> S) (s : S)
  : S * option exn :=
  (fold_left body (yields g) s, stop g).

(** The outer loop. *)
Fixpoint claim_all (max_mm : Z) (barcodes : list str) (st : index_state)
  : index_state * option exn :=
  match barcodes with
  | [] => (st, None)
  | barcode :: rest =>
      match for_gen (get_mismatches barcode max_mm) (claim_pattern barcode) st
      with
      | (st', None) => claim_all max_mm rest st'
      | (st', Some e) => (st', Some e)
      end
  end.

(** [for pattern in blacklist: del found[pattern]] *)
Fixpoint del_all (found : dict str) (patterns : list str)
  : result (dict str) :=
  match patterns with
  | [] => Ok found
  | pattern :: rest =>
      found' <- dict_del found pattern ;;
      del_all found' rest
  end.

(** The warnings emitted, and the returned pair or the exception. *)
Definition get_all_barcodes (barcodes : list str) (max_mm : Z)
  : list warning * result (dict str * dict pair_set) :=
  let '(st, e) := claim_all max_mm barcodes (IndexState [] [] []) in
  (st_warnings st,
   match e with
   | Some e => Raise e
   | None =>
       found <- del_all (st_found st) (keys (st_blacklist st)) ;;
       Ok (found, st_blacklist st)
   end).

(** ** The automaton *)

(** Modelled from the spec: the pattern matcher, which the source takes
    from the package [ahocorasick] ([Automaton], with [add_word],
    [make_automaton] and [iter]) and which is not part of the repository.
    Following section 4.3, scanning a read reports every occurrence of every
    stored word, in ascending order of the index of its last character;
    among the words ending at one index the longer comes first. Each
    occurrence is reported as that index and the value stored with the
    word. Words are non-empty: an empty word never occurs. The
    specification does not say what scanning does before any word was
    added; there the package is followed: the automaton has not been
    built, and iterating raises [AttributeError]. *)
Module Automaton.

Record t := Make { words : dict str }.

Definition new : t := Make [].

(** The package refuses the empty word. Here its entry is kept in
    [words], where it never occurs in a read and does not count as a
    word, see [is_word]. *)
Definition add_word (a : t) (word value : str) : t :=
  Make (dict_set (words a) word value).

(** Without a word there is nothing to build. *)
Definition make_automaton (a : t) : t := a.

Definition is_word (item : str * str) : bool :=
  match fst item with
  | [] => false
  | _ :: _ => true
  end.

(** Whether a word was added, so that [make_automaton] has built the
    automaton. *)
Definition has_word (a : t) : bool := existsb is_word (words a).

(** [read[s : e + 1]] for [s <= e < len(read)] *)
Definition window (read : str) (s e : nat) : str :=
  firstn (e + 1 - s) (skipn s read).

Definition ending_at (a : t) (read : str) (e : nat) : list (Z * str) :=
  flat_map
    (fun s =>
       match dict_get (words a) (window read s e) with
       | Some value => [(Z.of_nat e, value)]
       | None => []
       end)
    (seq 0 (e + 1)).

(** The occurrences in [read], in the order of the scan. *)
Definition hits (a : t) (read : str) : list (Z * str) :=
  flat_map (ending_at a read) (seq 0 (length read)).

(** [iter]: the occurrences are yielded when the automaton has been
    built; otherwise [AttributeError] is raised and nothing is yielded. *)
Definition iter (a : t) (read : str) : gen (Z * str) :=
  if has_word a then Gen (hits a read) None else graise AttributeError.

End Automaton.

(** ** TaggedRead *)

Record TaggedRead := {
  header : str;
  qual : str;
  tr_len_primer : Z;
  junk : option str;
  barcode : option str;
  linker : option str;
  amplicon : str;
  other_barcodes : list str;
  barcode_mismatch : bool
}.

Definition has_multiple_barcodes (r : TaggedRead) : bool :=
  0 <? Z.of_nat (length (other_barcodes r)).

(** [self.barcode is not None and len(self.amplicon) <= self.len_primer] *)
Definition is_just_primer (r : TaggedRead) : bool :=
  match barcode r with
  | Some _ => len (amplicon r) <=? tr_len_primer r
  | None => false
  end.

(** The truth value of [self.barcode and not self.is_just_primer]. *)
Definition is_regular (r : TaggedRead) : bool :=
  truthy (barcode r) && negb (is_just_primer r).

(** [PREDS], in the order of the literal; each entry gives the truth value
    of its lambda. *)
Definition PREDS : list (str * (TaggedRead -> bool)) :=
  [ (py "n_only_primer", is_just_primer);
    (py "n_multiple_bcs", has_multiple_barcodes);
    (py "n_no_barcode", fun read => negb (truthy (barcode read)));
    (py "n_barcode_mismatch", barcode_mismatch);
    (py "n_junk", fun read => truthy (junk read));
    (py "n_regular", is_regular) ].

(** ** ReadTagger *)

Record ReadTagger := {
  bc_to_id : dict str;
  len_linker : Z;
  len_primer : Z;
  stats : option (dict Z);
  automaton : Automaton.t;
  blacklist : dict pair_set
}.

Definition initial_stats : dict Z :=
  [ (py "n_only_primer", 0);
    (py "n_multiple_bcs", 0);
    (py "n_no_barcode", 0);
    (py "n_regular", 0);
    (py "n_barcode_mismatch", 0);
    (py "n_junk", 0) ].

(** [ReadTagger.__init__]: the warnings emitted, and the tagger or the
    exception. *)
Definition ReadTagger_init (bc_to_id : dict str) (len_linker len_primer : Z)
  (max_mm : Z) (use_stats : bool) : list warning * result ReadTagger :=
  let stats := if negb use_stats then None else Some initial_stats in
  let automaton := Automaton.new in
  let '(warned, r) := get_all_barcodes (keys bc_to_id) max_mm in
  (warned,
   r' <- r ;;
   let '(all_barcodes, blacklist) := r' in
   let automaton :=
     fold_left
       (fun a (item : str * str) =>
          let '(pattern, barcode) := item in
          Automaton.add_word a pattern barcode)
       (items all_barcodes) automaton in
   let automaton := Automaton.make_automaton automaton in
   Ok {| bc_to_id := bc_to_id;
         len_linker := len_linker;
         len_primer := len_primer;
         stats := stats;
         automaton := automaton;
         blacklist := blacklist |}).

(** A match: start, end (exclusive) and the barcode stored with the
    pattern. *)
Definition match_t := (Z * Z * str)%type.

(** [ReadTagger.search_barcode], a generator: the matches that it
    yields. *)
Definition search_barcode (self : ReadTagger) (read : str) : list match_t :=
  map
    (fun (hit : Z * str) =>
       let '(end_, barcode) := hit in
       let start := end_ - len barcode + 1 in
       (start, end_ + 1, barcode))
    (yields (Automaton.iter (automaton self) read)).

(** The exception that ends the iteration of [search_barcode], if any:
    the one of the automaton. *)
Definition search_barcode_stop (self : ReadTagger) (read : str)
  : option exn :=
  stop (Automaton.iter (automaton self) read).

Definition match_eqb (a b : match_t) : bool :=
  let '(s1, e1, b1) := a in
  let '(s2, e2, b2) := b in
  (s1 =? s2) && (e1 =? e2) && str_eqb b1 b2.

(** The keys of [OrderedDict((match, None) for match in ...)]: every match
    once, at the place of its first occurrence. *)
Fixpoint ordered_set (seen : list match_t) (l : list match_t)
  : list match_t :=
  match l with
  | [] => []
  | m :: r =>
      if existsb (match_eqb m) seen then ordered_set seen r
      else m :: ordered_set (m :: seen) r
  end.

(** The matches of a read in the order [tag_read] iterates them. *)
Definition matches_of (self : ReadTagger) (seq_read : str) : list match_t :=
  ordered_set [] (search_barcode self seq_read).

(** [next(match_iter, (None, None, None))]: the first match, if any. *)
Definition primary_match (self : ReadTagger) (seq_read : str)
  : option match_t :=
  hd_error (matches_of self seq_read).

Definition str_mem (x : str) (s : list str) : bool := existsb (str_eqb x) s.

Definition str_set_add (x : str) (s : list str) : list str :=
  if str_mem x s then s else s ++ [x].

(** [set(self.bc_to_id[bc] for _, _, bc in match_iter)] *)
Fixpoint ids_of (bc_to_id : dict str) (match_iter : list match_t)
  (acc : list str) : result (list str) :=
  match match_iter with
  | [] => Ok acc
  | (_, _, bc) :: rest =>
      id_ <- dict_getitem bc_to_id bc ;;
      ids_of bc_to_id rest (str_set_add id_ acc)
  end.

(** [s - {x}] where [x] may be [None] *)
Definition str_set_remove (s : list str) (x : option str) : list str :=
  match x with
  | Some x => filter (fun y => negb (str_eqb y x)) s
  | None => s
  end.

(** [s or None] *)
Definition or_none (s : str) : option str :=
  match s with
  | [] => None
  | _ => Some s
  end.

(** The loop over [PREDS], with [self.stats[name] += 1]. *)
Fixpoint count_preds (preds : list (str * (TaggedRead -> bool)))
  (read : TaggedRead) (stats : dict Z) : result (dict Z) :=
  match preds with
  | [] => Ok stats
  | (name, pred) :: rest =>
      if pred read then
        n <- dict_getitem stats name ;;
        count_preds rest read (dict_set stats name (n + 1))
      else count_preds rest read stats
  end.

Definition with_stats (self : ReadTagger) (stats : option (dict Z))
  : ReadTagger :=
  {| bc_to_id := bc_to_id self;
     len_linker := len_linker self;
     len_primer := len_primer self;
     stats := stats;
     automaton := automaton self;
     blacklist := blacklist self |}.

(** [ReadTagger.tag_read]: the tagged read and the tagger with its updated
    statistics, or the exception. The matches are collected from the
    generator [search_barcode] first, so that its exception is raised
    before anything else is done. *)
Definition tag_read (self : ReadTagger) (header seq_read seq_qual : str)
  : result (TaggedRead * ReadTagger) :=
  match search_barcode_stop self seq_read with
  | Some e => Raise e
  | None =>
      let matches := matches_of self seq_read in
      let first := hd_error matches in
      let match_iter := tl matches in
      let bc_id :=
        match first with
        | Some (_, _, barcode) => dict_get (bc_to_id self) barcode
        | None => None
        end in
      ids <- ids_of (bc_to_id self) match_iter [] ;;
      let other_barcodes := str_set_remove ids bc_id in
      let '(junk, linker, amplicon, barcode_mismatch) :=
        match first with
        | Some (bc_start, bc_end, barcode) =>
            let linker_end :=
              if bc_end =? 0 then None else Some (bc_end + len_linker self) in
            let junk := or_none (slice seq_read None (Some bc_start)) in
            let linker := slice seq_read (Some bc_end) linker_end in
            let amplicon := slice seq_read linker_end None in
            let barcode_mismatch :=
              negb (str_eqb (slice seq_read (Some bc_start) (Some bc_end))
                      barcode) in
            (junk, Some linker, amplicon, barcode_mismatch)
        | None => (None, None, seq_read, false)
        end in
      let read :=
        {| header := header;
           qual := seq_qual;
           tr_len_primer := len_primer self;
           junk := junk;
           barcode := bc_id;
           linker := linker;
           amplicon := amplicon;
           other_barcodes := other_barcodes;
           barcode_mismatch := barcode_mismatch |} in
      match stats self with
      | Some stats =>
          stats' <- count_preds PREDS read stats ;;
          Ok (read, with_stats self (Some stats'))
      | None => Ok (read, self)
      end
  end.

(** ** get_tagger *)

(** [{bc: id_ for id_, bc in id_to_bc}] *)
Definition bc_to_id_of (id_to_bc : list (str * str)) : dict str :=
  fold_left
    (fun d (p : str * str) => let '(id_, bc) := p in dict_set d bc id_)
    id_to_bc [].

(** [get_tagger]; the defaults of the two lengths live in a module that is
    not part of the sources, so both are passed. *)
Definition get_tagger (id_to_bc : list (str * str))
  (len_linker len_primer : Z) : list warning * result ReadTagger :=
  ReadTagger_init (bc_to_id_of id_to_bc) len_linker len_primer 1 true.

(** Tagging a sequence of reads, threading the tagger. *)
Fixpoint tag_reads (self : ReadTagger) (reads : list (str * str * str))
  : result (list TaggedRead * ReadTagger) :=
  match reads with
  | [] => Ok ([], self)
  | (header, seq_read, seq_qual) :: rest =>
      r <- tag_read self header seq_read seq_qual ;;
      let '(read, self') := r in
      r' <- tag_reads self' rest ;;
      let '(tagged, self'') := r' in
      Ok (read :: tagged, self'')
  end.

(** ** Definitions used in the statements and proofs *)

(** The pattern with [mismatch] at position [i]. *)
Definition substitute (barcode : str) (i : nat) (mismatch : ascii) : str :=
  firstn i barcode ++ mismatch :: skipn (S i) barcode.

(** The patterns for position [i], where the barcode has [c]. *)
Definition variants_at (barcode : str) (i : nat) : list str :=
  match nth_error barcode i with
  | Some c => map (substitute barcode i) (set_remove BASES c)
  | None => []
  end.

Definition variants (barcode : str) : list str :=
  flat_map (variants_at barcode) (seq 0 (length barcode)).

(** A set of pairs that holds [(b, a)] whenever it holds [(a, b)]. *)
Definition symmetric (s : pair_set) : Prop :=
  forall a b, pair_mem (a, b) s = true -> pair_mem (b, a) s = true.

(** What the loops of [get_all_barcodes] maintain, for barcodes taken from
    [barcodes]: both dictionaries have no key twice, a blacklisted pattern
    is claimed, the blacklisted pair sets are symmetric, and a claimed
    pattern belongs to one of the barcodes and has its length. *)
Record index_inv (barcodes : list str) (st : index_state) : Prop := {
  inv_found_wf : dict_wf (st_found st);
  inv_blacklist_wf : dict_wf (st_blacklist st);
  inv_blacklisted_claimed :
    forall p, In p (keys (st_blacklist st)) -> In p (keys (st_found st));
  inv_symmetric :
    forall p s, dict_get (st_blacklist st) p = Some s -> symmetric s;
  inv_claimed :
    forall p b, dict_get (st_found st) p = Some b ->
                In b barcodes /\ length p = length b
}.

(** What construction establishes and tagging maintains: a stored pattern
    carries a barcode that is a key of [bc_to_id] and has the length of the
    pattern, and the statistics have a counter for every name of [PREDS]. *)
Record tagger_inv (t : ReadTagger) : Prop := {
  tinv_words :
    forall p b, dict_get (Automaton.words (automaton t)) p = Some b ->
                In b (keys (bc_to_id t)) /\ length p = length b;
  tinv_stats :
    forall st, stats t = Some st ->
               forall name, In name (map fst PREDS) -> In name (keys st)
}.

(** The tagger of scenario 3: barcode AAAA with identifier BC1, linker
    length 2, primer length 4. *)
Definition scenario_tagger : ReadTagger :=
  Eval vm_compute in
    match snd (get_tagger [(py "BC1", py "AAAA")] 2 4) with
    | Ok t => t
    | Raise _ =>
        {| bc_to_id := []; len_linker := 0; len_primer := 0; stats := None;
           automaton := Automaton.new; blacklist := [] |}
    end.

(** How often the loop over [preds] increments the counter [k] for
    [read]. *)
Fixpoint hits (preds : list (str * (TaggedRead -> bool))) (read : TaggedRead)
  (k : str) : Z :=
  match preds with
  | [] => 0
  | (name, pred) :: rest =>
      (if str_eqb name k && pred read then 1 else 0) + hits rest read k
  end.

(** A counter of the statistics, 0 when there are none. *)
Definition stat (t : ReadTagger) (name : string) : Z :=
  match stats t with
  | Some st =>
      match dict_get st (py name) with
      | Some n => n
      | None => 0
      end
  | None => 0
  end.

(** [s or ''] for an optional segment. *)
Definition or_empty (o : option str) : str :=
  match o with
  | Some s => s
  | None => []
  end.

(** The read of scenario 3, tagged by [scenario_tagger]. *)
Definition scenario_tagged : TaggedRead * ReadTagger :=
  Eval vm_compute in
    match tag_read scenario_tagger (py "@r") (py "GGAAAACCGGTT")
            (py "IIIIIIIIIIII") with
    | Ok p => p
    | Raise _ =>
        ({| header := []; qual := []; tr_len_primer := 0; junk := None;
            barcode := None; linker := None; amplicon := [];
            other_barcodes := []; barcode_mismatch := false |},
         scenario_tagger)
    end.

(** The number of the predicates no-barcode, just-primer and is-regular
    that hold for a tagged read. *)
Definition categories (r : TaggedRead) : Z :=
  (if negb (truthy (barcode r)) then 1 else 0)
  + (if is_just_primer r then 1 else 0)
  + (if is_regular r then 1 else 0).

(** The sum of the three counters of these predicates. *)
Definition category_total (t : ReadTagger) : Z :=
  stat t "n_no_barcode" + stat t "n_only_primer" + stat t "n_regular".

(** ** TaggedRead.cut_seq and TaggedRead.__str__ *)

(** [seq[ljb:ljba]], where [ljb] adds the lengths of the junk and of the
    barcode field and [ljba] adds the length of the amplicon to it. *)
Definition cut_seq (self : TaggedRead) (seq : str) : str :=
  let ljb := len (or_empty (junk self)) + len (or_empty (barcode self)) in
  let ljba := ljb + len (or_empty (Some (amplicon self))) in
  slice seq (Some ljb) (Some ljba).

Definition newline : ascii := "010"%char.

(** How an f-string prints an optional string and a boolean. *)
Definition str_of_option (o : option str) : str :=
  match o with
  | Some s => s
  | None => py "None"
  end.

Definition str_of_bool (b : bool) : str :=
  if b then py "True" else py "False".

(** [sep.join(l)] *)
Fixpoint join (sep : str) (l : list str) : str :=
  match l with
  | [] => []
  | [x] => x
  | x :: r => x ++ sep ++ join sep r
  end.

(** The first line of [__str__]: the header and the annotations. *)
Definition info_line (self : TaggedRead) : str :=
  header self
  ++ py " barcode=" ++ str_of_option (barcode self)
  ++ py " linker=" ++ str_of_option (linker self)
  ++ py " multi-bc=" ++ str_of_bool (has_multiple_barcodes self)
  ++ py " just-primer=" ++ str_of_bool (is_just_primer self)
  ++ py " other-bcs="
  ++ str_of_option (or_none (join (py ",") (other_barcodes self)))
  ++ py " barcode-mismatch=" ++ str_of_bool (barcode_mismatch self)
  ++ py " junk=" ++ str_of_option (junk self).

(** [TaggedRead.__str__]; the identifiers of [other_barcodes] are joined
    in the order of the list. *)
Definition TaggedRead_str (self : TaggedRead) : str :=
  info_line self ++ [newline]
  ++ amplicon self ++ [newline]
  ++ py "+" ++ [newline]
  ++ cut_seq self (qual self) ++ [newline].

(** [s.split(sep)] for a separator of one character. *)
Fixpoint split (sep : ascii) (s : str) : list str :=
  match s with
  | [] => [[]]
  | c :: s' =>
      if Ascii.eqb c sep then [] :: split sep s'
      else
        match split sep s' with
        | [] => [[c]]
        | piece :: pieces => (c :: piece) :: pieces
        end
  end.

(** ** Further definitions for the statements *)

(** The claims that the loops of [get_all_barcodes] make, in order: each
    pattern with the barcode it is generated from. *)
Definition events (max_mm : Z) (barcodes : list str) : list (str * str) :=
  flat_map
    (fun barcode =>
       map (fun pattern => (pattern, barcode))
         (yields (get_mismatches barcode max_mm)))
    barcodes.

Definition claim_event (st : index_state) (ev : str * str) : index_state :=
  claim_pattern (snd ev) st (fst ev).

(** What holds of the state after the claims [evs], all of non-empty
    barcodes: a claimed pattern has an entry, an entry comes from a claim,
    a pattern claimed by two barcodes is blacklisted, a blacklisted pair
    comes from two claims of the pattern, every blacklisted set holds a
    pair, and the warnings name the blacklisted patterns and pairs. *)
Record events_inv (evs : list (str * str)) (st : index_state) : Prop := {
  ev_claimed :
    forall p a, In (p, a) evs -> exists b, dict_get (st_found st) p = Some b;
  ev_found :
    forall p b, dict_get (st_found st) p = Some b -> In (p, b) evs;
  ev_ambiguous :
    forall p a b, In (p, a) evs -> dict_get (st_found st) p = Some b ->
                  a <> b -> In p (keys (st_blacklist st));
  ev_pairs :
    forall p s x y, dict_get (st_blacklist st) p = Some s ->
                    pair_mem (x, y) s = true ->
                    In (p, x) evs /\ In (p, y) evs;
  ev_inhabited :
    forall p s, dict_get (st_blacklist st) p = Some s ->
                exists x y, pair_mem (x, y) s = true;
  ev_warned :
    forall p, In p (keys (st_blacklist st)) <->
              exists w, In w (st_warnings st) /\ w_pattern w = p;
  ev_warning :
    forall w, In w (st_warnings st) ->
              exists s, dict_get (st_blacklist st) (w_pattern w) = Some s /\
                        pair_mem (w_previous w, w_barcode w) s = true
}.

(** The taggers in use: constructed from [bc] and the two lengths, and
    then used to tag any number of reads. *)
Definition in_use (bc : dict str) (ll lp : Z) (t0 : ReadTagger) : Prop :=
  exists max_mm use_stats warned t before rs,
    ReadTagger_init bc ll lp max_mm use_stats = (warned, Ok t) /\
    tag_reads t before = Ok (rs, t0).

(** The number of reads of [rs] for which [pred] holds. *)
Definition count_reads (pred : TaggedRead -> bool) (rs : list TaggedRead)
  : Z :=
  Z.of_nat (length (filter pred rs)).

(** The index of scenario 2, barcodes AAAA and AAAT with budget 1: the
    warnings, the final map and the blacklist. *)
Definition scenario2_index : list warning * dict str * dict pair_set :=
  Eval vm_compute in
    match get_all_barcodes [py "AAAA"; py "AAAT"] 1 with
    | (warned, Ok (found, bl)) => (warned, found, bl)
    | (warned, Raise _) => (warned, [], [])
    end.

Definition scenario2_warned : list warning := fst (fst scenario2_index).
Definition scenario2_found : dict str := snd (fst scenario2_index).
Definition scenario2_blacklist : dict pair_set := snd scenario2_index.

(** A string of one line. *)
Definition no_newline (s : str) : Prop := ~ In newline s.

(** A tagger of two barcodes, AC with identifier X and ACGT with
    identifier Y, linker and primer length 0, and the read TACGT tagged by
    it: both barcodes occur. *)
Definition two_tagger : ReadTagger :=
  Eval vm_compute in
    match snd (get_tagger [(py "X", py "AC"); (py "Y", py "ACGT")] 0 0) with
    | Ok t => t
    | Raise _ => scenario_tagger
    end.

Definition two_tagged : TaggedRead * ReadTagger :=
  Eval vm_compute in
    match tag_read two_tagger (py "@r") (py "TACGT") (py "IIIII") with
    | Ok p => p
    | Raise _ => scenario_tagged
    end.

(** A second read, TTTAAAAGG, tagged by the tagger of scenario 3 when it
    is fresh, and when it has tagged the read of scenario 3 before. *)
Definition second_read_fresh : TaggedRead * ReadTagger :=
  Eval vm_compute in
    match tag_read scenario_tagger (py "@s") (py "TTTAAAAGG")
            (py "IIIIIIIII") with
    | Ok p => p
    | Raise _ => scenario_tagged
    end.

Definition second_read_later : TaggedRead * ReadTagger :=
  Eval vm_compute in
    match tag_read (snd scenario_tagged) (py "@s") (py "TTTAAAAGG")
            (py "IIIIIIIII") with
    | Ok p => p
    | Raise _ => scenario_tagged
    end.

(** * Properties *)

(** ** Running the definitions *)

Example get_mismatches_AC :
  get_mismatches (py "AC") 1 =
  Gen (map py ["AC"; "TC"; "GC"; "CC"; "AA"; "AT"; "AG"]) None.
Proof. reflexivity. Qed.

Example get_mismatches_budget_0 :
  get_mismatches (py "AC") 0 = Gen [py "AC"] (Some TypeError).
Proof. reflexivity. Qed.

(** A symbol that is not a base is replaced by each of the four bases. *)
Example get_mismatches_other_symbol :
  get_mismatches (py "N") 1 = Gen (map py ["N"; "A"; "T"; "G"; "C"]) None.
Proof. reflexivity. Qed.

(** Scenario 2: AAAA and AAAT differ in one position; the patterns shared
    by their expansions are blacklisted, with one warning each. *)
Example get_all_barcodes_scenario2 :
  let '(warned, r) := get_all_barcodes [py "AAAA"; py "AAAT"] 1 in
  match r with
  | Ok (found, blacklist) =>
      keys blacklist = map py ["AAAT"; "AAAA"; "AAAG"; "AAAC"] /\
      length warned = 4%nat /\ length found = 18%nat /\
      dict_get found (py "AAAA") = None /\
      dict_get found (py "TAAT") = Some (py "AAAT")
  | Raise _ => False
  end.
Proof. vm_compute. repeat split. Qed.

(** Barcodes of different lengths in one read: the scan reports both in
    the order of their ends, and the first one is the primary match. *)
Example tag_read_two_lengths :
  match snd (get_tagger [(py "X", py "AC"); (py "Y", py "ACGT")] 0 0) with
  | Ok t =>
      search_barcode t (py "TACGT") = [(1, 3, py "AC"); (1, 5, py "ACGT")] /\
      exists r t',
        tag_read t (py "@r") (py "TACGT") (py "IIIII") = Ok (r, t') /\
        barcode r = Some (py "X") /\ other_barcodes r = [py "Y"] /\
        junk r = Some (py "T") /\ amplicon r = py "GT"
  | Raise _ => False
  end.
Proof.
  vm_compute. split; [reflexivity|].
  eexists _, _. repeat split.
Qed.

(** ** Strings and slices *)

Lemma str_eqb_eq (a b : str) : str_eqb a b = true <-> a = b.
Proof.
  revert b; induction a as [|x a IH]; intros [|y b]; simpl;
    try (split; [discriminate | congruence]); try tauto.
  rewrite andb_true_iff, Ascii.eqb_eq, IH.
  split; [intros [-> ->]; reflexivity | intros H; inversion H; auto].
Qed.

Lemma str_eqb_refl (a : str) : str_eqb a a = true.
Proof. apply str_eqb_eq; reflexivity. Qed.

Lemma str_eqb_neq (a b : str) : str_eqb a b = false <-> a <> b.
Proof.
  rewrite <- str_eqb_eq. destruct (str_eqb a b); split; congruence.
Qed.

Lemma str_eq_dec (a b : str) : {a = b} + {a <> b}.
Proof.
  destruct (str_eqb a b) eqn:E; [left; apply str_eqb_eq | right; apply str_eqb_neq]; exact E.
Qed.

Lemma slice_to (s : str) (i : Z) :
  0 <= i -> slice s None (Some i) = firstn (Z.to_nat i) s.
Proof.
  intros Hi. unfold slice, slice_index, len.
  destruct (i <? 0) eqn:E; [apply Z.ltb_lt in E; lia|].
  simpl skipn. rewrite Z.sub_0_r.
  destruct (Z_le_gt_dec i (Z.of_nat (length s))) as [Hle|Hgt].
  - f_equal. lia.
  - rewrite !firstn_all2 by lia. reflexivity.
Qed.

Lemma slice_from (s : str) (i : Z) :
  0 <= i -> slice s (Some i) None = skipn (Z.to_nat i) s.
Proof.
  intros Hi. unfold slice, slice_index, len.
  destruct (i <? 0) eqn:E; [apply Z.ltb_lt in E; lia|].
  destruct (Z_le_gt_dec i (Z.of_nat (length s))) as [Hle|Hgt].
  - replace (Z.max 0 (Z.min (Z.of_nat (length s)) i)) with i by lia.
    apply firstn_all2. rewrite length_skipn. lia.
  - replace (Z.max 0 (Z.min (Z.of_nat (length s)) i))
      with (Z.of_nat (length s)) by lia.
    rewrite Z.sub_diag, Nat2Z.id. simpl.
    rewrite skipn_all2 by lia. reflexivity.
Qed.

Lemma slice_between (s : str) (a b : Z) :
  0 <= a -> 0 <= b ->
  slice s (Some a) (Some b) =
  firstn (Z.to_nat b - Z.to_nat a) (skipn (Z.to_nat a) s).
Proof.
  intros Ha Hb. unfold slice, slice_index, len.
  destruct (a <? 0) eqn:Ea; [apply Z.ltb_lt in Ea; lia|].
  destruct (b <? 0) eqn:Eb; [apply Z.ltb_lt in Eb; lia|].
  set (n := length s).
  destruct (Z_le_gt_dec a (Z.of_nat n)) as [Hle|Hgt].
  - replace (Z.max 0 (Z.min (Z.of_nat n) a)) with a by lia.
    destruct (Z_le_gt_dec b (Z.of_nat n)) as [Hle'|Hgt'].
    + f_equal. lia.
    + rewrite !firstn_all2; [reflexivity| |]; rewrite length_skipn; fold n; lia.
  - rewrite !(skipn_all2 s) by (fold n; lia).
    rewrite !firstn_nil. reflexivity.
Qed.

(** ** Generators *)

Lemma flat_map_ext_on {A B} (f g : A -> list B) (l : list A) :
  (forall x, In x l -> f x = g x) -> flat_map f l = flat_map g l.
Proof.
  intros H. rewrite !flat_map_concat_map. f_equal. apply map_ext_in, H.
Qed.

Lemma gfor_total {A B} (l : list A) (body : A -> gen B) :
  (forall x, In x l -> stop (body x) = None) ->
  gfor l body = Gen (flat_map (fun x => yields (body x)) l) None.
Proof.
  induction l as [|x l IH]; intros H; simpl; [reflexivity|].
  unfold gseq. rewrite (H x) by (left; reflexivity).
  rewrite IH by (intros; apply H; right; assumption). reflexivity.
Qed.

(** ** get_mismatches *)

Lemma nth_error_in_range {A} (l : list A) (i : nat) :
  (i < length l)%nat -> exists c, nth_error l i = Some c.
Proof.
  intros H. destruct (nth_error l i) eqn:E; [eauto|].
  apply nth_error_None in E. lia.
Qed.

Lemma mismatches_at_position (barcode : str) (i : nat) :
  (i < length barcode)%nat ->
  char_at barcode i (fun c =>
    gfor (set_remove BASES c) (fun mismatch =>
      gyield (slice barcode None (zi i) ++ [mismatch]
              ++ slice barcode (zi (i + 1)%nat) None)))
  = Gen (variants_at barcode i) None.
Proof.
  intros Hi. unfold char_at, variants_at.
  destruct (nth_error_in_range barcode Hi) as [c ->].
  rewrite gfor_total by reflexivity. f_equal.
  unfold zi. rewrite slice_to, slice_from by lia.
  rewrite !Nat2Z.id, Nat.add_1_r.
  induction (set_remove BASES c) as [|m ms IH]; [reflexivity|].
  change (flat_map ?f (m :: ms)) with (f m ++ flat_map f ms).
  rewrite IH. reflexivity.
Qed.

Lemma get_mismatches_1 (barcode : str) :
  get_mismatches barcode 1 = Gen (barcode :: variants barcode) None.
Proof.
  unfold get_mismatches. simpl negb. cbv iota.
  rewrite gfor_total.
  - unfold gseq, gyield, gskip; simpl. f_equal. f_equal. unfold variants, range.
    apply flat_map_ext_on.
    intros i Hi. apply in_seq in Hi.
    rewrite mismatches_at_position by lia. reflexivity.
  - intros i Hi. apply in_seq in Hi.
    rewrite mismatches_at_position by lia. reflexivity.
Qed.

Lemma get_mismatches_not_1 (barcode : str) (max_mm : Z) :
  max_mm <> 1 -> get_mismatches barcode max_mm = Gen [barcode] (Some TypeError).
Proof.
  intros H. unfold get_mismatches.
  apply Z.eqb_neq in H. rewrite H. reflexivity.
Qed.

Arguments get_mismatches : simpl never.

Lemma substitute_length (barcode : str) (i : nat) (m : ascii) :
  (i < length barcode)%nat -> length (substitute barcode i m) = length barcode.
Proof.
  intros Hi. unfold substitute.
  rewrite length_app, length_firstn.
  change (length (m :: ?l)) with (S (length l)).
  rewrite length_skipn. lia.
Qed.

Lemma substitute_nth_same (barcode : str) (i : nat) (m : ascii) :
  (i < length barcode)%nat -> nth_error (substitute barcode i m) i = Some m.
Proof.
  intros Hi. unfold substitute.
  rewrite nth_error_app2; rewrite length_firstn; [|lia].
  replace (i - Nat.min i (length barcode))%nat with 0%nat by lia.
  reflexivity.
Qed.

Lemma substitute_nth_other (barcode : str) (i j : nat) (m : ascii) :
  (i < length barcode)%nat -> i <> j ->
  nth_error (substitute barcode i m) j = nth_error barcode j.
Proof.
  intros Hi Hij. unfold substitute.
  rewrite <- (firstn_skipn i barcode) at 3.
  assert (Hf : length (firstn i barcode) = i) by (rewrite length_firstn; lia).
  destruct (Nat.lt_ge_cases j i) as [Hlt|Hge].
  - rewrite !nth_error_app1 by lia. reflexivity.
  - rewrite !nth_error_app2 by lia. rewrite Hf.
    destruct (j - i)%nat as [|k] eqn:E; [lia|].
    change (nth_error (m :: ?l) (S k)) with (nth_error l k).
    rewrite !nth_error_skipn. f_equal. lia.
Qed.

Lemma in_set_remove (s : list ascii) (c m : ascii) :
  In m (set_remove s c) <-> In m s /\ m <> c.
Proof.
  unfold set_remove. rewrite filter_In, negb_true_iff, Ascii.eqb_neq. tauto.
Qed.

Lemma in_variants_at (barcode : str) (i : nat) (p : str) :
  In p (variants_at barcode i) <->
  exists c m, nth_error barcode i = Some c /\ In m BASES /\ m <> c /\
              p = substitute barcode i m.
Proof.
  unfold variants_at. destruct (nth_error barcode i) as [c|] eqn:E.
  - rewrite in_map_iff. split.
    + intros (m & <- & Hm). apply in_set_remove in Hm. exists c, m. tauto.
    + intros (c' & m & Hc & Hm & Hne & ->). inversion Hc; subst c'.
      exists m. split; [reflexivity|]. apply in_set_remove. tauto.
  - split; [intros []|]. intros (c & m & Hc & _). discriminate.
Qed.

Lemma in_variants (barcode p : str) :
  In p (variants barcode) <->
  exists i c m, nth_error barcode i = Some c /\ In m BASES /\ m <> c /\
                p = substitute barcode i m.
Proof.
  unfold variants. rewrite in_flat_map. split.
  - intros (i & _ & H). exists i. apply in_variants_at, H.
  - intros (i & H). exists i. split; [|apply in_variants_at, H].
    destruct H as (c & m & Hc & _). apply in_seq.
    assert (i < length barcode)%nat; [|lia].
    apply nth_error_Some. congruence.
Qed.

Lemma variants_length (barcode p : str) :
  In p (variants barcode) -> length p = length barcode.
Proof.
  intros H. apply in_variants in H. destruct H as (i & c & m & Hc & _ & _ & ->).
  apply substitute_length, nth_error_Some. congruence.
Qed.

Lemma yields_length (barcode : str) (max_mm : Z) (p : str) :
  In p (yields (get_mismatches barcode max_mm)) -> length p = length barcode.
Proof.
  destruct (Z.eq_dec max_mm 1) as [->|Hne].
  - rewrite get_mismatches_1. simpl. intros [<-|H]; [reflexivity|].
    apply variants_length, H.
  - rewrite get_mismatches_not_1 by assumption. simpl.
    intros [<-|[]]. reflexivity.
Qed.

Lemma length_flat_map_const {A B} (f : A -> list B) (k : nat) (l : list A) :
  (forall x, In x l -> length (f x) = k) ->
  length (flat_map f l) = (k * length l)%nat.
Proof.
  induction l as [|x l IH]; intros H; simpl; [lia|].
  rewrite length_app, H by (left; reflexivity).
  rewrite IH by (intros; apply H; right; assumption). lia.
Qed.

Lemma set_remove_BASES_length (c : ascii) :
  In c BASES -> length (set_remove BASES c) = 3%nat.
Proof.
  unfold BASES. simpl.
  intros [<-|[<-|[<-|[<-|[]]]]]; reflexivity.
Qed.

Lemma variants_count (barcode : str) :
  Forall (fun c => In c BASES) barcode ->
  length (variants barcode) = (3 * length barcode)%nat.
Proof.
  intros Hall. unfold variants.
  rewrite (@length_flat_map_const _ _ (variants_at barcode) 3%nat).
  - rewrite length_seq. reflexivity.
  - intros i Hi. apply in_seq in Hi. unfold variants_at.
    destruct (nth_error barcode i) as [c|] eqn:E.
    + rewrite length_map. apply set_remove_BASES_length.
      rewrite Forall_forall in Hall. apply Hall.
      eapply nth_error_In, E.
    + apply nth_error_None in E. lia.
Qed.

(** C7. With budget 1 the expansion of a barcode over the four bases ends
    normally, yields exactly [1 + 3 * len(B)] strings, all of the length of
    [B], and yields [B] itself first. *)
Theorem get_mismatches_budget_1 (B : str) :
  Forall (fun c => In c BASES) B ->
  stop (get_mismatches B 1) = None /\
  Z.of_nat (length (yields (get_mismatches B 1))) = 1 + 3 * len B /\
  Forall (fun p => len p = len B) (yields (get_mismatches B 1)) /\
  hd_error (yields (get_mismatches B 1)) = Some B.
Proof.
  intros Hall. rewrite get_mismatches_1. simpl yields. simpl stop.
  repeat split.
  - simpl length. rewrite variants_count by assumption. unfold len. lia.
  - apply Forall_forall. intros p Hp. unfold len. f_equal.
    destruct Hp as [<-|Hp]; [reflexivity|]. apply variants_length, Hp.
Qed.

Lemma get_mismatches_budget_1_witness :
  Forall (fun c => In c BASES) (py "ATGC") /\
  Z.of_nat (length (yields (get_mismatches (py "ATGC") 1))) = 13.
Proof.
  assert (H : Forall (fun c => In c BASES) (py "ATGC")).
  { repeat (apply Forall_cons; [simpl; auto 7|]). apply Forall_nil. }
  split; [exact H|].
  exact (proj1 (proj2 (get_mismatches_budget_1 H))).
Defined.

(** C2, as stated, fails: with budget 0 the expansion raises, after it
    has yielded the barcode. *)
Lemma get_mismatches_budget_0_raises :
  ~ (stop (get_mismatches (py "AAAA") 0) <> None <-> ~ (0 = 0 \/ 0 = 1)).
Proof.
  intros [H _]. apply H; [discriminate | left; reflexivity].
Qed.

(** C2, amended. Fully iterating the expansion raises if and only if the
    budget is not 1. With budget 0 the barcode is yielded and then the
    error is raised; with budget 1 the expansion ends normally and starts
    with the barcode. *)
Theorem get_mismatches_raises_iff (B : str) (m : Z) :
  (stop (get_mismatches B m) <> None <-> m <> 1) /\
  get_mismatches B 0 = Gen [B] (Some TypeError) /\
  stop (get_mismatches B 1) = None /\
  hd_error (yields (get_mismatches B 1)) = Some B.
Proof.
  split; [|split; [|split]].
  - destruct (Z.eq_dec m 1) as [->|Hne].
    + rewrite get_mismatches_1. simpl. split; congruence.
    + rewrite get_mismatches_not_1 by assumption. simpl.
      split; [intros _; assumption | discriminate].
  - apply get_mismatches_not_1. discriminate.
  - rewrite get_mismatches_1. reflexivity.
  - rewrite get_mismatches_1. reflexivity.
Qed.

(** ** Dictionaries *)

Section DictFacts.
Variable V : Type.
Implicit Types (d : dict V) (k : str) (v : V).

Lemma dict_get_set_same d k v : dict_get (dict_set d k v) k = Some v.
Proof.
  induction d as [|[k' v'] d IH]; simpl.
  - rewrite str_eqb_refl. reflexivity.
  - destruct (str_eqb k' k) eqn:E; simpl; rewrite E; auto.
Qed.

Lemma dict_get_set_other d k k' v :
  k <> k' -> dict_get (dict_set d k v) k' = dict_get d k'.
Proof.
  intros Hne. induction d as [|[k0 v0] d IH]; simpl.
  - apply str_eqb_neq in Hne. rewrite Hne. reflexivity.
  - destruct (str_eqb k0 k) eqn:E; simpl.
    + apply str_eqb_eq in E. subst k0.
      apply str_eqb_neq in Hne. rewrite Hne. reflexivity.
    + rewrite IH. reflexivity.
Qed.

Lemma keys_dict_set d k v k' :
  In k' (keys (dict_set d k v)) <-> k' = k \/ In k' (keys d).
Proof.
  induction d as [|[k0 v0] d IH]; simpl.
  - intuition congruence.
  - destruct (str_eqb k0 k) eqn:E; simpl.
    + apply str_eqb_eq in E. subst k0. intuition congruence.
    + rewrite IH. tauto.
Qed.

Lemma dict_wf_set d k v : dict_wf d -> dict_wf (dict_set d k v).
Proof.
  unfold dict_wf. induction d as [|[k0 v0] d IH]; simpl; intros Hwf.
  - constructor; [intros []|constructor].
  - inversion Hwf as [|? ? Hnin Hwf']; subst.
    destruct (str_eqb k0 k) eqn:E; simpl.
    + constructor; assumption.
    + constructor; [|apply IH, Hwf'].
      rewrite (keys_dict_set d k v k0). intros [->|H]; [|contradiction].
      rewrite str_eqb_refl in E. discriminate.
Qed.

Lemma dict_get_In d k v : dict_get d k = Some v -> In (k, v) d.
Proof.
  induction d as [|[k0 v0] d IH]; simpl; [discriminate|].
  destruct (str_eqb k0 k) eqn:E.
  - apply str_eqb_eq in E. intros H. inversion H; subst. left; reflexivity.
  - intros H. right. apply IH, H.
Qed.

Lemma dict_get_key d k v : dict_get d k = Some v -> In k (keys d).
Proof.
  intros H. apply dict_get_In in H. unfold keys.
  change k with (fst (k, v)). apply in_map, H.
Qed.

Lemma dict_get_None d k : dict_get d k = None <-> ~ In k (keys d).
Proof.
  induction d as [|[k0 v0] d IH]; simpl; [tauto|].
  destruct (str_eqb k0 k) eqn:E.
  - apply str_eqb_eq in E. split; [discriminate|]. intros H. exfalso. auto.
  - apply str_eqb_neq in E. rewrite IH. tauto.
Qed.

Lemma dict_key_get d k : In k (keys d) -> exists v, dict_get d k = Some v.
Proof.
  intros H. destruct (dict_get d k) as [v|] eqn:E; [eauto|].
  apply dict_get_None in E. contradiction.
Qed.

(** Deleting a key that is there. *)
Lemma dict_del_present d k :
  dict_wf d -> In k (keys d) ->
  exists d', dict_del d k = Ok d' /\ dict_wf d' /\
             dict_get d' k = None /\
             (forall k', k' <> k -> dict_get d' k' = dict_get d k').
Proof.
  unfold dict_wf.
  induction d as [|[k0 v0] d IH]; simpl; intros Hwf Hin; [contradiction|].
  inversion Hwf as [|? ? Hnin Hwf']; subst.
  destruct (str_eqb k0 k) eqn:E.
  - apply str_eqb_eq in E. subst k0. exists d. repeat split; auto.
    + apply dict_get_None, Hnin.
    + intros k' Hne. destruct (str_eqb k k') eqn:E'; [|reflexivity].
      apply str_eqb_eq in E'. congruence.
  - destruct Hin as [Hin|Hin].
    { subst k0. rewrite str_eqb_refl in E. discriminate. }
    destruct (IH Hwf' Hin) as (d' & Hdel & Hwf1 & Hnone & Hother).
    exists ((k0, v0) :: d'). rewrite Hdel. simpl. repeat split.
    + constructor; [|assumption].
      intros Hk. apply dict_key_get in Hk. destruct Hk as [v Hv].
      rewrite Hother in Hv by (apply str_eqb_neq; assumption).
      apply dict_get_key in Hv. contradiction.
    + rewrite E. assumption.
    + intros k' Hne. destruct (str_eqb k0 k'); [reflexivity|].
      apply Hother, Hne.
Qed.

(** Inserting the items of a well-formed dictionary into an empty one
    rebuilds it. *)
Lemma dict_set_fresh d k v :
  ~ In k (keys d) -> dict_set d k v = d ++ [(k, v)].
Proof.
  induction d as [|[k0 v0] d IH]; simpl; intros H; [reflexivity|].
  destruct (str_eqb k0 k) eqn:E.
  - apply str_eqb_eq in E. exfalso. auto.
  - rewrite IH by tauto. reflexivity.
Qed.

Lemma keys_app d1 d2 : keys (d1 ++ d2) = keys d1 ++ keys d2.
Proof. apply map_app. Qed.

Lemma dict_rebuild (set : dict V -> str * V -> dict V) d acc :
  (forall a k v, set a (k, v) = dict_set a k v) ->
  NoDup (keys acc ++ keys d) ->
  fold_left set d acc = acc ++ d.
Proof.
  intros Hset. revert acc.
  induction d as [|[k v] d IH]; intros acc Hnd; simpl.
  - rewrite app_nil_r. reflexivity.
  - rewrite Hset, dict_set_fresh.
    + rewrite IH; [rewrite <- app_assoc; reflexivity|].
      rewrite keys_app, <- app_assoc. exact Hnd.
    + simpl in Hnd. apply NoDup_remove_2 in Hnd.
      intros H. apply Hnd, in_or_app. left. exact H.
Qed.
End DictFacts.

(** ** Sets of pairs *)

Lemma pair_eqb_eq (p q : str * str) : pair_eqb p q = true <-> p = q.
Proof.
  destruct p as [a b], q as [c d]. unfold pair_eqb; simpl.
  rewrite andb_true_iff, !str_eqb_eq. split; [intros [-> ->]; reflexivity|].
  intros H; inversion H; auto.
Qed.

Lemma pair_eqb_swap (a b c d : str) :
  pair_eqb (a, b) (c, d) = pair_eqb (b, a) (d, c).
Proof. unfold pair_eqb; simpl. apply andb_comm. Qed.

Lemma pair_mem_add (q p : str * str) (s : pair_set) :
  pair_mem q (pair_add p s) = pair_eqb q p || pair_mem q s.
Proof.
  unfold pair_add. destruct (pair_mem p s) eqn:E.
  - destruct (pair_eqb q p) eqn:E'; [|reflexivity].
    apply pair_eqb_eq in E'. subst q. simpl. exact E.
  - unfold pair_mem. rewrite existsb_app. simpl.
    rewrite orb_false_r. apply orb_comm.
Qed.

Lemma symmetric_add (a b : str) (s : pair_set) :
  symmetric s -> symmetric (pair_add (b, a) (pair_add (a, b) s)).
Proof.
  intros Hs x y. rewrite !pair_mem_add, !orb_true_iff.
  rewrite (pair_eqb_swap y x b a), (pair_eqb_swap y x a b).
  intros [H|[H|H]]; auto.
Qed.

(** ** get_all_barcodes: what the loops maintain *)

Lemma index_inv_initial (barcodes : list str) :
  index_inv barcodes (IndexState [] [] []).
Proof.
  constructor; simpl; try (constructor; fail); try contradiction;
    intros; discriminate.
Qed.

Lemma claim_pattern_inv (barcodes : list str) (barcode pattern : str)
  (st : index_state) :
  index_inv barcodes st -> In barcode barcodes ->
  length pattern = length barcode ->
  index_inv barcodes (claim_pattern barcode st pattern).
Proof.
  intros [Hfw Hbw Hbc Hsym Hcl] Hin Hlen. unfold claim_pattern.
  assert (Hclaimed : forall d,
    dict_wf d -> (forall p b, dict_get d p = Some b ->
                              In b barcodes /\ length p = length b) ->
    forall p b, dict_get (dict_set d pattern barcode) p = Some b ->
                In b barcodes /\ length p = length b).
  { intros d _ Hd p b. destruct (str_eq_dec pattern p) as [<-|Hne].
    - rewrite dict_get_set_same. intros H; inversion H; subst. auto.
    - rewrite dict_get_set_other by assumption. apply Hd. }
  destruct (dict_get (st_found st) pattern) as [previous|] eqn:Eprev;
    [destruct (truthy (Some previous))|]; constructor; simpl;
    try (apply dict_wf_set; assumption); try assumption;
    try (apply Hclaimed; assumption);
    try (intros p Hp; apply keys_dict_set; right; apply Hbc, Hp).
  - intros p Hp. apply keys_dict_set.
    apply keys_dict_set in Hp. destruct Hp as [->|Hp]; [left; reflexivity|].
    right. apply Hbc, Hp.
  - intros p s. destruct (str_eq_dec pattern p) as [<-|Hne].
    + rewrite dict_get_set_same. intros H; inversion H; subst.
      apply symmetric_add. unfold setdefault.
      destruct (dict_get (st_blacklist st) pattern) as [s0|] eqn:E.
      * eapply Hsym, E.
      * intros a b; discriminate.
    + rewrite dict_get_set_other by assumption. apply Hsym.
Qed.

Lemma claim_patterns_inv (barcodes : list str) (barcode : str)
  (patterns : list str) (st : index_state) :
  index_inv barcodes st -> In barcode barcodes ->
  (forall p, In p patterns -> length p = length barcode) ->
  index_inv barcodes (fold_left (claim_pattern barcode) patterns st).
Proof.
  revert st. induction patterns as [|p ps IH]; intros st Hinv Hin Hlen; simpl.
  - exact Hinv.
  - apply IH; [|assumption|intros; apply Hlen; right; assumption].
    apply claim_pattern_inv; auto. apply Hlen. left; reflexivity.
Qed.

Lemma claim_all_cons (max_mm : Z) (b : str) (bs : list str)
  (st : index_state) :
  claim_all max_mm (b :: bs) st =
  let st' := fold_left (claim_pattern b) (yields (get_mismatches b max_mm)) st in
  match stop (get_mismatches b max_mm) with
  | None => claim_all max_mm bs st'
  | Some e => (st', Some e)
  end.
Proof. reflexivity. Qed.

Lemma claim_all_inv (max_mm : Z) (all barcodes : list str)
  (st st' : index_state) (e : option exn) :
  index_inv all st -> incl barcodes all ->
  claim_all max_mm barcodes st = (st', e) -> index_inv all st'.
Proof.
  revert st. induction barcodes as [|b bs IH]; intros st Hinv Hincl.
  - simpl. intros H; inversion H; subst. exact Hinv.
  - rewrite claim_all_cons. cbv zeta.
    assert (Hinv' : index_inv all
              (fold_left (claim_pattern b)
                 (yields (get_mismatches b max_mm)) st)).
    { apply claim_patterns_inv; [assumption|apply Hincl; left; reflexivity|].
      intros p. apply yields_length. }
    destruct (stop (get_mismatches b max_mm)).
    + intros H; inversion H; subst. exact Hinv'.
    + apply IH; [exact Hinv'|]. intros x Hx. apply Hincl. right. exact Hx.
Qed.

Lemma claim_all_budget_1 (barcodes : list str) (st : index_state) :
  exists st', claim_all 1 barcodes st = (st', None).
Proof.
  revert st. induction barcodes as [|b bs IH]; intros st.
  - simpl. eauto.
  - rewrite claim_all_cons, get_mismatches_1. simpl stop. cbv zeta. apply IH.
Qed.

Lemma del_all_present (found : dict str) (patterns : list str) :
  dict_wf found -> NoDup patterns ->
  (forall p, In p patterns -> In p (keys found)) ->
  exists found', del_all found patterns = Ok found' /\ dict_wf found' /\
    (forall p, In p patterns -> dict_get found' p = None) /\
    (forall p, ~ In p patterns -> dict_get found' p = dict_get found p).
Proof.
  revert found. induction patterns as [|p ps IH]; intros found Hwf Hnd Hin; simpl.
  - exists found. repeat split; auto. intros p [].
  - inversion Hnd as [|? ? Hnin Hnd']; subst.
    destruct (@dict_del_present _ found p Hwf) as (d1 & Hdel & Hwf1 & Hnone & Hother).
    { apply Hin. left; reflexivity. }
    rewrite Hdel. simpl.
    destruct (IH d1 Hwf1 Hnd') as (d2 & Hdel2 & Hwf2 & Hnone2 & Hother2).
    { intros q Hq. assert (Hne : q <> p) by congruence.
      destruct (@dict_key_get _ found q) as [v Hv]; [apply Hin; right; exact Hq|].
      rewrite <- Hother in Hv by assumption. eapply dict_get_key, Hv. }
    exists d2. repeat split; auto.
    + intros q [<-|Hq]; [|apply Hnone2, Hq].
      rewrite Hother2 by assumption. exact Hnone.
    + intros q Hq. rewrite Hother2 by tauto. apply Hother.
      intros ->. apply Hq. left; reflexivity.
Qed.

(** The result of [get_all_barcodes] when the expansion does not raise. *)
Lemma get_all_barcodes_ok (barcodes : list str) (max_mm : Z)
  (st : index_state) :
  claim_all max_mm barcodes (IndexState [] [] []) = (st, None) ->
  exists found,
    get_all_barcodes barcodes max_mm
    = (st_warnings st, Ok (found, st_blacklist st)) /\
    dict_wf found /\
    (forall p, In p (keys (st_blacklist st)) -> dict_get found p = None) /\
    (forall p, ~ In p (keys (st_blacklist st)) ->
               dict_get found p = dict_get (st_found st) p).
Proof.
  intros Hrun. unfold get_all_barcodes. rewrite Hrun.
  assert (Hinv : index_inv barcodes st).
  { eapply claim_all_inv; [apply index_inv_initial|apply incl_refl|exact Hrun]. }
  destruct Hinv as [Hfw Hbw Hbc _ _].
  destruct (del_all_present Hfw Hbw Hbc) as (found & Hdel & Hwf & Hnone & Hother).
  exists found. rewrite Hdel. simpl. auto.
Qed.

(** C6. With budget 1, [get_all_barcodes] returns, for every list of
    barcodes, a pattern map and a blacklist with no key in common, and in
    every pair set of the blacklist [(a, b)] is a member if and only if
    [(b, a)] is. *)
Theorem get_all_barcodes_disjoint_symmetric (barcodes : list str) :
  exists warned found blacklist,
    get_all_barcodes barcodes 1 = (warned, Ok (found, blacklist)) /\
    (forall p, In p (keys blacklist) -> ~ In p (keys found)) /\
    (forall p s a b, dict_get blacklist p = Some s ->
       (pair_mem (a, b) s = true <-> pair_mem (b, a) s = true)).
Proof.
  destruct (claim_all_budget_1 barcodes (IndexState [] [] [])) as [st Hrun].
  destruct (get_all_barcodes_ok _ _ Hrun) as (found & Hres & _ & Hnone & _).
  exists (st_warnings st), found, (st_blacklist st).
  split; [exact Hres|]. split.
  - intros p Hp. apply dict_get_None, Hnone, Hp.
  - assert (Hinv : index_inv barcodes st).
    { eapply claim_all_inv;
        [apply index_inv_initial|apply incl_refl|exact Hrun]. }
    intros p s a b Hs. pose proof (inv_symmetric Hinv _ Hs) as Hsym.
    split; apply Hsym.
Qed.

(** ** The automaton *)

Lemma window_length (read : str) (s e : nat) :
  (e < length read)%nat ->
  length (Automaton.window read s e) = (e + 1 - s)%nat.
Proof.
  intros He. unfold Automaton.window.
  rewrite length_firstn, length_skipn. lia.
Qed.

Lemma in_ending_at (a : Automaton.t) (read : str) (e : nat) (hit : Z * str) :
  In hit (Automaton.ending_at a read e) <->
  exists s, (s <= e)%nat /\
    dict_get (Automaton.words a) (Automaton.window read s e) = Some (snd hit) /\
    fst hit = Z.of_nat e.
Proof.
  unfold Automaton.ending_at. rewrite in_flat_map. split.
  - intros (s & Hs & Hin). apply in_seq in Hs. exists s.
    destruct (dict_get _ _) as [v|]; [|contradiction].
    destruct Hin as [<-|[]]. simpl. split; [lia|auto].
  - intros (s & Hs & Hget & Hfst). exists s. split; [apply in_seq; lia|].
    rewrite Hget. left. destruct hit; simpl in *; congruence.
Qed.

Lemma in_hits (a : Automaton.t) (read : str) (hit : Z * str) :
  In hit (Automaton.hits a read) <->
  exists s e, (s <= e < length read)%nat /\
    dict_get (Automaton.words a) (Automaton.window read s e) = Some (snd hit) /\
    fst hit = Z.of_nat e.
Proof.
  unfold Automaton.hits. rewrite in_flat_map. split.
  - intros (e & He & Hin). apply in_seq in He. apply in_ending_at in Hin.
    destruct Hin as (s & Hs & H). exists s, e. split; [lia|exact H].
  - intros (s & e & Hse & H). exists e. split; [apply in_seq; lia|].
    apply in_ending_at. exists s. split; [lia|exact H].
Qed.

(** A word that occurs is not empty, so an automaton without a word has
    no occurrences. *)
Lemma occurrence_has_word (a : Automaton.t) (read : str) (hit : Z * str) :
  In hit (Automaton.hits a read) -> Automaton.has_word a = true.
Proof.
  intros H. apply in_hits in H. destruct H as (s & e & Hse & Hget & _).
  unfold Automaton.has_word. apply existsb_exists.
  exists (Automaton.window read s e, snd hit).
  split; [apply dict_get_In, Hget|].
  unfold Automaton.is_word. cbn [fst].
  assert (Hl : length (Automaton.window read s e) = (e + 1 - s)%nat).
  { unfold Automaton.window. rewrite length_firstn, length_skipn. lia. }
  destruct (Automaton.window read s e); [simpl in Hl; lia|reflexivity].
Qed.

Lemma iter_yields (a : Automaton.t) (read : str) :
  yields (Automaton.iter a read) = Automaton.hits a read.
Proof.
  unfold Automaton.iter. destruct (Automaton.has_word a) eqn:E; [reflexivity|].
  simpl. destruct (Automaton.hits a read) as [|hit l] eqn:Eh; [reflexivity|].
  assert (H : In hit (Automaton.hits a read)) by (rewrite Eh; left; reflexivity).
  apply occurrence_has_word in H. congruence.
Qed.

Lemma iter_stop (a : Automaton.t) (read : str) :
  stop (Automaton.iter a read)
  = if Automaton.has_word a then None else Some AttributeError.
Proof.
  unfold Automaton.iter. destruct (Automaton.has_word a); reflexivity.
Qed.

Lemma in_iter (a : Automaton.t) (read : str) (hit : Z * str) :
  In hit (yields (Automaton.iter a read)) <->
  exists s e, (s <= e < length read)%nat /\
    dict_get (Automaton.words a) (Automaton.window read s e) = Some (snd hit) /\
    fst hit = Z.of_nat e.
Proof. rewrite iter_yields. apply in_hits. Qed.


Lemma automaton_words_fold (l : list (str * str)) (a : Automaton.t) :
  Automaton.words
    (fold_left
       (fun a (item : str * str) =>
          let '(pattern, barcode) := item in
          Automaton.add_word a pattern barcode) l a)
  = fold_left (fun d (item : str * str) => dict_set d (fst item) (snd item))
      l (Automaton.words a).
Proof.
  revert a. induction l as [|[k v] l IH]; intros a; simpl; [reflexivity|].
  rewrite IH. reflexivity.
Qed.

Lemma automaton_of_found (found : dict str) :
  dict_wf found ->
  Automaton.words
    (Automaton.make_automaton
       (fold_left
          (fun a (item : str * str) =>
             let '(pattern, barcode) := item in
             Automaton.add_word a pattern barcode)
          (items found) Automaton.new))
  = found.
Proof.
  intros Hwf. unfold Automaton.make_automaton, items.
  rewrite automaton_words_fold.
  rewrite dict_rebuild; [reflexivity| |exact Hwf].
  intros a k v. reflexivity.
Qed.

(** ** Construction of the tagger *)

Lemma get_all_barcodes_inv (barcodes : list str) (max_mm : Z)
  (warned : list warning) (found : dict str) (bl : dict pair_set) :
  get_all_barcodes barcodes max_mm = (warned, Ok (found, bl)) ->
  dict_wf found /\
  (forall p b, dict_get found p = Some b ->
               In b barcodes /\ length p = length b) /\
  (forall p, In p (keys bl) -> dict_get found p = None).
Proof.
  intros Hres.
  destruct (claim_all max_mm barcodes (IndexState [] [] [])) as [st e] eqn:Hrun.
  destruct e as [e|].
  { unfold get_all_barcodes in Hres. rewrite Hrun in Hres. discriminate. }
  destruct (get_all_barcodes_ok _ _ Hrun) as (found' & Hres' & Hwf & Hnone & Hother).
  rewrite Hres in Hres'. inversion Hres'; subst.
  assert (Hinv : index_inv barcodes st).
  { eapply claim_all_inv;
      [apply index_inv_initial|apply incl_refl|exact Hrun]. }
  split; [exact Hwf|]. split; [|exact Hnone].
  intros p b Hp.
  destruct (in_dec str_eq_dec p (keys (st_blacklist st))) as [Hin|Hnin].
  - rewrite Hnone in Hp by assumption. discriminate.
  - rewrite Hother in Hp by assumption. eapply inv_claimed; eassumption.
Qed.

Lemma initial_stats_keys (name : str) :
  In name (map fst PREDS) -> In name (keys initial_stats).
Proof.
  simpl. intros H.
  repeat (destruct H as [<-|H]; [auto 10|]). contradiction.
Qed.

Lemma ReadTagger_init_ok (bc : dict str) (ll lp max_mm : Z) (use_stats : bool)
  (warned : list warning) (t : ReadTagger) :
  ReadTagger_init bc ll lp max_mm use_stats = (warned, Ok t) ->
  tagger_inv t /\
  bc_to_id t = bc /\ len_linker t = ll /\ len_primer t = lp /\
  stats t = (if use_stats then Some initial_stats else None) /\
  get_all_barcodes (keys bc) max_mm
  = (warned, Ok (Automaton.words (automaton t), blacklist t)).
Proof.
  unfold ReadTagger_init.
  destruct (get_all_barcodes (keys bc) max_mm) as [w r] eqn:Hres.
  destruct r as [[found bl]|e]; cbn [bind]; [|discriminate].
  intros H. inversion H; subst; clear H.
  destruct (get_all_barcodes_inv _ _ Hres) as (Hwf & Hcl & _).
  cbn [bc_to_id len_linker len_primer stats automaton blacklist].
  rewrite (automaton_of_found Hwf).
  split; [constructor|];
    cbn [bc_to_id len_linker len_primer stats automaton blacklist].
  - rewrite (automaton_of_found Hwf). exact Hcl.
  - intros st Hst name. destruct use_stats; simpl in Hst; [|discriminate].
    inversion Hst; subst. apply initial_stats_keys.
  - repeat split. destruct use_stats; reflexivity.
Qed.

Lemma ReadTagger_init_budget_1 (bc : dict str) (ll lp : Z) (use_stats : bool) :
  exists warned t, ReadTagger_init bc ll lp 1 use_stats = (warned, Ok t).
Proof.
  destruct (claim_all_budget_1 (keys bc) (IndexState [] [] [])) as [st Hrun].
  destruct (get_all_barcodes_ok _ _ Hrun) as (found & Hres & _).
  unfold ReadTagger_init. rewrite Hres. cbn [bind]. eauto.
Qed.

(** ** search_barcode *)

(** Under the invariant every match is a window of the read that is a
    stored pattern: its start is the start of the window. *)
Lemma in_search_barcode (t : ReadTagger) (read : str) (m : match_t) :
  tagger_inv t ->
  In m (search_barcode t read) <->
  exists s e b, m = (Z.of_nat s, Z.of_nat e + 1, b) /\
    (s <= e < length read)%nat /\
    dict_get (Automaton.words (automaton t)) (Automaton.window read s e)
    = Some b.
Proof.
  intros Hinv. unfold search_barcode. rewrite in_map_iff. split.
  - intros ([e' b] & <- & Hin). apply in_iter in Hin. simpl in Hin.
    destruct Hin as (s & e & Hse & Hget & ->).
    exists s, e, b. split; [|auto].
    destruct (tinv_words Hinv _ Hget) as [_ Hlen].
    rewrite window_length in Hlen by lia.
    unfold len. rewrite <- Hlen.
    replace (Z.of_nat e - Z.of_nat (e + 1 - s) + 1) with (Z.of_nat s) by lia.
    reflexivity.
  - intros (s & e & b & -> & Hse & Hget).
    exists (Z.of_nat e, b). split.
    + destruct (tinv_words Hinv _ Hget) as [_ Hlen].
      rewrite window_length in Hlen by lia.
      unfold len. rewrite <- Hlen.
      replace (Z.of_nat e - Z.of_nat (e + 1 - s) + 1) with (Z.of_nat s) by lia.
      reflexivity.
    + apply in_iter. exists s, e. simpl. auto.
Qed.



(** ** tag_read *)

Lemma ordered_set_In (seen l : list match_t) (m : match_t) :
  In m (ordered_set seen l) -> In m l.
Proof.
  revert seen. induction l as [|x l IH]; intros seen; simpl; [tauto|].
  destruct (existsb (match_eqb x) seen).
  - intros H. right. eapply IH, H.
  - intros [H|H]; [left; exact H|right; eapply IH, H].
Qed.

Lemma primary_match_In (t : ReadTagger) (s : str) (m : match_t) :
  primary_match t s = Some m -> In m (search_barcode t s).
Proof.
  unfold primary_match, matches_of. intros H.
  apply ordered_set_In with (seen := []).
  destruct (ordered_set [] (search_barcode t s)); [discriminate|].
  inversion H; subst. left; reflexivity.
Qed.

Lemma match_iter_In (t : ReadTagger) (s : str) (m : match_t) :
  In m (tl (matches_of t s)) -> In m (search_barcode t s).
Proof.
  unfold matches_of. intros H.
  apply ordered_set_In with (seen := []).
  destruct (ordered_set [] (search_barcode t s)); [contradiction|].
  right. exact H.
Qed.

Lemma ids_of_total (bc : dict str) (ms : list match_t) (acc : list str) :
  (forall m, In m ms -> In (snd m) (keys bc)) ->
  exists ids, ids_of bc ms acc = Ok ids.
Proof.
  revert acc. induction ms as [|[[s e] b] ms IH]; intros acc H; simpl.
  - eauto.
  - destruct (@dict_key_get _ bc b) as [v Hv].
    { apply (H (s, e, b)). left; reflexivity. }
    unfold dict_getitem. rewrite Hv. cbn [bind].
    apply IH. intros m Hm. apply H. right. exact Hm.
Qed.

Lemma count_preds_spec (preds : list (str * (TaggedRead -> bool)))
  (read : TaggedRead) (st st' : dict Z) :
  count_preds preds read st = Ok st' ->
  forall k, dict_get st' k
            = option_map (fun n => n + hits preds read k) (dict_get st k).
Proof.
  revert st. induction preds as [|[name pred] preds IH]; intros st; simpl.
  - intros H k. inversion H; subst.
    destruct (dict_get st' k); simpl; [apply f_equal; lia|reflexivity].
  - destruct (pred read) eqn:Ep.
    + unfold dict_getitem. destruct (dict_get st name) as [n|] eqn:En;
        cbn [bind]; [|discriminate].
      intros H k. rewrite (IH _ H k).
      destruct (str_eq_dec name k) as [<-|Hne].
      * rewrite dict_get_set_same, En, str_eqb_refl.
        cbn [option_map andb]. apply f_equal. lia.
      * rewrite dict_get_set_other by assumption.
        apply str_eqb_neq in Hne. rewrite Hne. reflexivity.
    + intros H k. rewrite (IH _ H k). rewrite andb_false_r. reflexivity.
Qed.

Lemma count_preds_total (preds : list (str * (TaggedRead -> bool)))
  (read : TaggedRead) (st : dict Z) :
  (forall name, In name (map fst preds) -> In name (keys st)) ->
  exists st', count_preds preds read st = Ok st' /\
              (forall k, In k (keys st) -> In k (keys st')).
Proof.
  revert st. induction preds as [|[name pred] preds IH]; intros st H; simpl.
  - eauto.
  - assert (Hrest : forall st1, (forall k, In k (keys st) -> In k (keys st1)) ->
              exists st', count_preds preds read st1 = Ok st' /\
                          (forall k, In k (keys st) -> In k (keys st'))).
    { intros st1 Hst1. destruct (IH st1) as (st' & Hrun & Hkeys).
      - intros n Hn. apply Hst1, H. right. exact Hn.
      - exists st'. split; [exact Hrun|]. intros k Hk. apply Hkeys, Hst1, Hk. }
    destruct (pred read).
    + destruct (@dict_key_get _ st name) as [n Hn]; [apply H; left; reflexivity|].
      unfold dict_getitem. rewrite Hn. cbn [bind].
      apply Hrest. intros k Hk. apply keys_dict_set. right. exact Hk.
    + apply Hrest. auto.
Qed.

(** The fields of the tagged read, in terms of the primary match. *)
Lemma tag_read_fields (t t' : ReadTagger) (h s q : str) (r : TaggedRead) :
  tag_read t h s q = Ok (r, t') ->
  header r = h /\ qual r = q /\ tr_len_primer r = len_primer t /\
  match primary_match t s with
  | Some (bc_start, bc_end, b) =>
      let linker_end :=
        if bc_end =? 0 then None else Some (bc_end + len_linker t) in
      junk r = or_none (slice s None (Some bc_start)) /\
      barcode r = dict_get (bc_to_id t) b /\
      linker r = Some (slice s (Some bc_end) linker_end) /\
      amplicon r = slice s linker_end None /\
      barcode_mismatch r
      = negb (str_eqb (slice s (Some bc_start) (Some bc_end)) b)
  | None =>
      junk r = None /\ barcode r = None /\ linker r = None /\
      amplicon r = s /\ barcode_mismatch r = false /\ other_barcodes r = []
  end.
Proof.
  unfold tag_read, primary_match.
  destruct (search_barcode_stop t s); [discriminate|].
  destruct (ids_of (bc_to_id t) (tl (matches_of t s)) []) as [ids|e] eqn:Eids;
    cbn [bind]; [|discriminate].
  destruct (matches_of t s) as [|[[bs be] b] rest] eqn:Em; cbn [hd_error].
  - simpl in Eids. inversion Eids; subst ids.
    destruct (stats t) as [st|].
    + destruct (count_preds _ _ st); cbn [bind]; [|discriminate].
      intros H; inversion H; subst; simpl. tauto.
    + intros H; inversion H; subst; simpl. tauto.
  - destruct (stats t) as [st|].
    + destruct (count_preds _ _ st); cbn [bind]; [|discriminate].
      intros H; inversion H; subst; simpl. tauto.
    + intros H; inversion H; subst; simpl. tauto.
Qed.

(** Tagging returns only when the automaton has been built. *)
Lemma tag_read_has_word (t t' : ReadTagger) (h s q : str) (r : TaggedRead) :
  tag_read t h s q = Ok (r, t') -> Automaton.has_word (automaton t) = true.
Proof.
  unfold tag_read, search_barcode_stop. rewrite iter_stop.
  destruct (Automaton.has_word (automaton t)); [reflexivity|discriminate].
Qed.

Lemma tag_read_unbuilt (t : ReadTagger) (h s q : str) :
  Automaton.has_word (automaton t) = false ->
  tag_read t h s q = Raise AttributeError.
Proof.
  intros H. unfold tag_read, search_barcode_stop. rewrite iter_stop, H.
  reflexivity.
Qed.

Lemma tag_read_total (t : ReadTagger) (h s q : str) :
  tagger_inv t -> Automaton.has_word (automaton t) = true ->
  exists r t', tag_read t h s q = Ok (r, t') /\ tagger_inv t' /\
    bc_to_id t' = bc_to_id t /\ automaton t' = automaton t /\
    len_linker t' = len_linker t /\ len_primer t' = len_primer t /\
    blacklist t' = blacklist t /\
    match stats t with
    | Some st =>
        exists st', stats t' = Some st' /\
          forall k, dict_get st' k
                    = option_map (fun n => n + hits PREDS r k) (dict_get st k)
    | None => stats t' = None
    end.
Proof.
  intros Hinv Hword. unfold tag_read, search_barcode_stop.
  rewrite iter_stop, Hword.
  destruct (@ids_of_total (bc_to_id t) (tl (matches_of t s)) []) as [ids Hids].
  { intros m Hm. apply match_iter_In in Hm.
    apply in_search_barcode in Hm; [|exact Hinv].
    destruct Hm as (s0 & e0 & b & -> & _ & Hget). simpl.
    apply (tinv_words Hinv _ Hget). }
  rewrite Hids. cbn [bind].
  set (fields := match hd_error (matches_of t s) with
                 | Some (bc_start, bc_end, b) => _
                 | None => _
                 end).
  destruct fields as [[[j l] a] mm].
  destruct (stats t) as [st|] eqn:Est.
  - match goal with |- context [count_preds PREDS ?r st] => set (read := r) end.
    destruct (@count_preds_total PREDS read st) as (st' & Hrun & Hkeys).
    { intros name Hname. eapply (tinv_stats Hinv); eassumption. }
    rewrite Hrun. cbn [bind]. exists read, (with_stats t (Some st')).
    split; [reflexivity|]. split.
    + constructor; simpl; [apply (tinv_words Hinv)|].
      intros st0 H0 name Hname. inversion H0; subst st0.
      apply Hkeys. eapply (tinv_stats Hinv); eassumption.
    + repeat split. exists st'. split; [reflexivity|].
      apply count_preds_spec, Hrun.
  - eexists _, t. split; [reflexivity|]. split; [exact Hinv|].
    repeat split. exact Est.
Qed.

(** What a call of [tag_read] that returns leaves of the tagger. *)
Lemma tag_read_ok (t t' : ReadTagger) (h s q : str) (r : TaggedRead) :
  tagger_inv t -> tag_read t h s q = Ok (r, t') ->
  tagger_inv t' /\
  bc_to_id t' = bc_to_id t /\ automaton t' = automaton t /\
  len_linker t' = len_linker t /\ len_primer t' = len_primer t /\
  blacklist t' = blacklist t /\
  match stats t with
  | Some st =>
      exists st', stats t' = Some st' /\
        forall k, dict_get st' k
                  = option_map (fun n => n + hits PREDS r k) (dict_get st k)
  | None => stats t' = None
  end.
Proof.
  intros Hinv Hrun.
  destruct (tag_read_total h s q Hinv (tag_read_has_word _ _ _ _ Hrun))
    as (r1 & t1 & Hrun1 & H).
  rewrite Hrun in Hrun1. inversion Hrun1; subst r1 t1. exact H.
Qed.

Lemma tag_reads_total (t : ReadTagger) (reads : list (str * str * str)) :
  tagger_inv t -> Automaton.has_word (automaton t) = true ->
  exists rs t', tag_reads t reads = Ok (rs, t') /\ tagger_inv t' /\
    bc_to_id t' = bc_to_id t /\ automaton t' = automaton t /\
    len_linker t' = len_linker t /\ len_primer t' = len_primer t.
Proof.
  revert t. induction reads as [|[[h s] q] reads IH]; intros t Hinv Hword; simpl.
  - exists [], t. split; [reflexivity|]. split; [exact Hinv|]. repeat split.
  - destruct (tag_read_total h s q Hinv Hword)
      as (r & t1 & Hrun & Hinv1 & Hbc & Haut & Hll & Hlp & _).
    rewrite Hrun. cbn [bind].
    assert (Hword1 : Automaton.has_word (automaton t1) = true)
      by (rewrite Haut; exact Hword).
    destruct (IH t1 Hinv1 Hword1)
      as (rs & t2 & Hruns & Hinv2 & Hbc2 & Haut2 & Hll2 & Hlp2).
    rewrite Hruns. cbn [bind]. exists (r :: rs), t2.
    split; [reflexivity|]. split; [exact Hinv2|].
    repeat split; congruence.
Qed.

(** What a sequence of calls that all return leaves of the tagger. *)
Lemma tag_reads_ok (t t' : ReadTagger) (reads : list (str * str * str))
  (rs : list TaggedRead) :
  tagger_inv t -> tag_reads t reads = Ok (rs, t') ->
  tagger_inv t' /\
  bc_to_id t' = bc_to_id t /\ automaton t' = automaton t /\
  len_linker t' = len_linker t /\ len_primer t' = len_primer t.
Proof.
  revert t rs. induction reads as [|[[h s] q] reads IH]; intros t rs Hinv; simpl.
  - intros H; inversion H; subst. split; [exact Hinv|]. repeat split.
  - destruct (tag_read t h s q) as [[r t1]|e] eqn:Hrun; cbn [bind];
      [|discriminate].
    destruct (tag_read_ok _ _ _ Hinv Hrun)
      as (Hinv1 & Hbc & Haut & Hll & Hlp & _).
    destruct (tag_reads t1 reads) as [[rs1 t2]|e] eqn:Hruns; cbn [bind];
      [|discriminate].
    intros H; inversion H; subst.
    destruct (IH _ _ Hinv1 Hruns) as (Hinv2 & Hbc2 & Haut2 & Hll2 & Hlp2).
    split; [exact Hinv2|]. repeat split; congruence.
Qed.

(** A tagger that was constructed and has tagged some reads. *)
Lemma tagger_after_reads (bc : dict str) (ll lp max_mm : Z)
  (use_stats : bool) (warned : list warning) (t t0 : ReadTagger)
  (before : list (str * str * str)) (rs : list TaggedRead) :
  ReadTagger_init bc ll lp max_mm use_stats = (warned, Ok t) ->
  tag_reads t before = Ok (rs, t0) ->
  tagger_inv t0 /\ bc_to_id t0 = bc /\ len_linker t0 = ll /\
  len_primer t0 = lp /\ automaton t0 = automaton t.
Proof.
  intros Hinit Hruns.
  destruct (ReadTagger_init_ok _ _ _ _ _ Hinit)
    as (Hinv & Hbc & Hll & Hlp & _).
  destruct (tag_reads_ok _ Hinv Hruns) as (Hinv0 & Hbc0 & Haut0 & Hll0 & Hlp0).
  split; [exact Hinv0|]. repeat split; congruence.
Qed.

(** ** Scenario 3 *)

Lemma scenario_tagger_built :
  get_tagger [(py "BC1", py "AAAA")] 2 4 = ([], Ok scenario_tagger).
Proof. vm_compute. reflexivity. Qed.

(** C1, as stated, fails: the read is not segmented at [2, 6). *)
Lemma scenario3_not_at_2_6 :
  ~ (exists r t',
       tag_read scenario_tagger (py "@r") (py "GGAAAACCGGTT")
         (py "IIIIIIIIIIII") = Ok (r, t') /\
       primary_match scenario_tagger (py "GGAAAACCGGTT")
       = Some (2, 6, py "AAAA") /\
       junk r = Some (py "GG") /\ linker r = Some (py "CC") /\
       amplicon r = py "GGTT" /\ barcode_mismatch r = false).
Proof.
  intros (r & t' & _ & H & _). vm_compute in H. discriminate.
Qed.

(** C1, amended. For the tagger built with the single barcode AAAA
    (identifier BC1), linker length 2 and primer length 4, with budget 1,
    the primary match of the read GGAAAACCGGTT is the one that ends first,
    the pattern GAAA at [1, 5); tagging yields junk G, linker AC, amplicon
    CGGTT and the mismatch flag True. *)
Theorem scenario3_first_ending_match (h q : str) :
  get_tagger [(py "BC1", py "AAAA")] 2 4 = ([], Ok scenario_tagger) /\
  primary_match scenario_tagger (py "GGAAAACCGGTT") = Some (1, 5, py "AAAA") /\
  exists t',
    tag_read scenario_tagger h (py "GGAAAACCGGTT") q
    = Ok ({| header := h; qual := q; tr_len_primer := 4;
             junk := Some (py "G");
             barcode := Some (py "BC1");
             linker := Some (py "AC");
             amplicon := py "CGGTT";
             other_barcodes := [];
             barcode_mismatch := true |}, t').
Proof.
  split; [exact scenario_tagger_built|].
  split; [vm_compute; reflexivity|].
  eexists. vm_compute. reflexivity.
Qed.

(** ** The segments of a tagged read *)

Lemma or_empty_or_none (s : str) : or_empty (or_none s) = s.
Proof. destruct s; reflexivity. Qed.

Lemma skipn_skipn_add {A} (a b : nat) (l : list A) :
  skipn a (skipn b l) = skipn (a + b) l.
Proof.
  revert l. induction b as [|b IH]; intros l.
  - rewrite Nat.add_0_r. reflexivity.
  - rewrite Nat.add_succ_r. destruct l as [|x l]; simpl.
    + apply skipn_nil.
    + apply IH.
Qed.

Lemma split_at {A} (a b : nat) (l : list A) :
  (a <= b)%nat -> skipn a l = firstn (b - a) (skipn a l) ++ skipn b l.
Proof.
  intros Hab. rewrite <- (firstn_skipn (b - a) (skipn a l)) at 1.
  rewrite skipn_skipn_add. repeat f_equal. lia.
Qed.

(** The primary match of a tagger that satisfies the invariant lies within
    the read and is not empty. *)
Lemma primary_match_bounds (t : ReadTagger) (s : str) (bs be : Z) (b : str) :
  tagger_inv t -> primary_match t s = Some (bs, be, b) ->
  0 <= bs < be /\ be <= len s /\ In b (keys (bc_to_id t)).
Proof.
  intros Hinv Hm. apply primary_match_In in Hm.
  apply in_search_barcode in Hm; [|exact Hinv].
  destruct Hm as (s0 & e0 & b0 & Heq & Hse & Hget).
  inversion Heq; subst. unfold len.
  destruct (tinv_words Hinv _ Hget) as [Hb _]. repeat split; try lia; auto.
Qed.

(** The segments when a barcode was found, for a linker length that is
    not negative. *)
Lemma segments_found (t t' : ReadTagger) (h s q : str) (r : TaggedRead)
  (bs be : Z) (b : str) :
  tagger_inv t -> 0 <= len_linker t ->
  tag_read t h s q = Ok (r, t') ->
  primary_match t s = Some (bs, be, b) ->
  or_empty (junk r) = firstn (Z.to_nat bs) s /\
  slice s (Some bs) (Some be)
  = firstn (Z.to_nat be - Z.to_nat bs) (skipn (Z.to_nat bs) s) /\
  or_empty (linker r)
  = firstn (Z.to_nat (be + len_linker t) - Z.to_nat be)
      (skipn (Z.to_nat be) s) /\
  amplicon r = skipn (Z.to_nat (be + len_linker t)) s.
Proof.
  intros Hinv Hll Hrun Hm.
  destruct (primary_match_bounds _ Hinv Hm) as (Hbs & Hbe & _).
  apply tag_read_fields in Hrun. rewrite Hm in Hrun.
  destruct Hrun as (_ & _ & _ & Hj & _ & Hl & Ha & _).
  assert (E : (be =? 0) = false) by (apply Z.eqb_neq; lia).
  rewrite E in Hl, Ha.
  rewrite Hj, Hl, Ha, or_empty_or_none. simpl or_empty.
  rewrite slice_to, slice_from, !slice_between by lia. auto.
Qed.

(** C9. The segments of a tagged read rebuild the read: when a primary
    barcode match was found at [start, end), junk (or the empty string),
    the matched region, the linker and the amplicon concatenate to the
    read; when none was found, the amplicon is the read. This holds for
    every read tagged by a constructed tagger, whatever it has tagged
    before; the linker length is not negative. *)
Theorem tag_read_segments_rebuild (bc : dict str) (ll lp max_mm : Z)
  (use_stats : bool) (warned : list warning) (t t0 t' : ReadTagger)
  (before : list (str * str * str)) (rs : list TaggedRead)
  (h s q : str) (r : TaggedRead) :
  ReadTagger_init bc ll lp max_mm use_stats = (warned, Ok t) ->
  0 <= ll ->
  tag_reads t before = Ok (rs, t0) ->
  tag_read t0 h s q = Ok (r, t') ->
  match primary_match t0 s with
  | Some (start, end_, _) =>
      or_empty (junk r) ++ slice s (Some start) (Some end_)
      ++ or_empty (linker r) ++ amplicon r = s
  | None => amplicon r = s
  end.
Proof.
  intros Hinit Hll Hbefore Hrun.
  destruct (tagger_after_reads _ _ _ _ _ _ Hinit Hbefore)
    as (Hinv & _ & Hlen & _).
  destruct (primary_match t0 s) as [[[bs be] b]|] eqn:Hm.
  - destruct (primary_match_bounds _ Hinv Hm) as (Hbs & Hbe & _).
    rewrite <- Hlen in Hll.
    destruct (segments_found _ _ _ Hinv Hll Hrun Hm) as (-> & -> & -> & ->).
    rewrite <- (@split_at _ (Z.to_nat be) (Z.to_nat (be + len_linker t0)) s)
      by lia.
    rewrite <- (@split_at _ (Z.to_nat bs) (Z.to_nat be) s) by lia.
    apply firstn_skipn.
  - apply tag_read_fields in Hrun. rewrite Hm in Hrun. tauto.
Qed.

Lemma scenario_tagged_run :
  tag_read scenario_tagger (py "@r") (py "GGAAAACCGGTT") (py "IIIIIIIIIIII")
  = Ok (fst scenario_tagged, snd scenario_tagged).
Proof. vm_compute. reflexivity. Qed.

Lemma tag_read_segments_rebuild_witness :
  or_empty (junk (fst scenario_tagged))
  ++ slice (py "GGAAAACCGGTT") (Some 1) (Some 5)
  ++ or_empty (linker (fst scenario_tagged))
  ++ amplicon (fst scenario_tagged) = py "GGAAAACCGGTT".
Proof.
  assert (H2 : 0 <= 2) by lia.
  exact (@tag_read_segments_rebuild
           [(py "AAAA", py "BC1")] 2 4 1 true [] scenario_tagger
           scenario_tagger (snd scenario_tagged) [] [] (py "@r")
           (py "GGAAAACCGGTT") (py "IIIIIIIIIIII") (fst scenario_tagged)
           scenario_tagger_built H2 eq_refl scenario_tagged_run).
Defined.

(** C4, as stated, fails: a read that ends with its barcode has an empty
    amplicon. *)
Lemma amplicon_empty_after_barcode :
  exists r t',
    tag_read scenario_tagger (py "@r") (py "AAAA") (py "IIII") = Ok (r, t') /\
    amplicon r = [].
Proof. eexists _, _. split; [vm_compute; reflexivity|reflexivity]. Qed.

(** C4, amended. The amplicon of a tagged read is the remainder of the
    read: the whole read when no barcode was found, and what follows the
    linker window when one was found at [start, end). It is a suffix of the
    read and may be empty: it is non-empty exactly when the read is longer
    than [end + len_linker], or, with no barcode, when the read is not
    empty. This holds for every read tagged by a constructed tagger,
    whatever it has tagged before; the linker length is not negative. *)
Theorem amplicon_is_remainder (bc : dict str) (ll lp max_mm : Z)
  (use_stats : bool) (warned : list warning) (t t0 t' : ReadTagger)
  (before : list (str * str * str)) (rs : list TaggedRead)
  (h s q : str) (r : TaggedRead) :
  ReadTagger_init bc ll lp max_mm use_stats = (warned, Ok t) ->
  0 <= ll ->
  tag_reads t before = Ok (rs, t0) ->
  tag_read t0 h s q = Ok (r, t') ->
  (exists before_amplicon, s = before_amplicon ++ amplicon r) /\
  match primary_match t0 s with
  | Some (_, end_, _) =>
      amplicon r = slice s (Some (end_ + ll)) None /\
      (amplicon r <> [] <-> end_ + ll < len s)
  | None => amplicon r = s /\ (amplicon r <> [] <-> 0 < len s)
  end.
Proof.
  intros Hinit Hll Hbefore Hrun.
  destruct (tagger_after_reads _ _ _ _ _ _ Hinit Hbefore)
    as (Hinv & _ & Hlen & _).
  destruct (primary_match t0 s) as [[[bs be] b]|] eqn:Hm.
  - destruct (primary_match_bounds _ Hinv Hm) as (Hbs & Hbe & _).
    rewrite <- Hlen in Hll.
    destruct (segments_found _ _ _ Hinv Hll Hrun Hm) as (_ & _ & _ & Ha).
    rewrite <- Hlen, slice_from, Ha by lia.
    split; [|split; [reflexivity|]].
    + exists (firstn (Z.to_nat (be + len_linker t0)) s).
      symmetry. apply firstn_skipn.
    + set (n := Z.to_nat (be + len_linker t0)).
      assert (Hl : length (skipn n s) = (length s - n)%nat)
        by apply length_skipn.
      unfold len. destruct (skipn n s); simpl in Hl; split; intros H;
        try congruence; try discriminate; lia.
  - apply tag_read_fields in Hrun. rewrite Hm in Hrun.
    destruct Hrun as (_ & _ & _ & _ & _ & _ & Ha & _). rewrite Ha.
    split; [exists []; reflexivity|]. split; [reflexivity|].
    unfold len. destruct s; simpl; split; intros H;
      try congruence; try discriminate; lia.
Qed.

Lemma amplicon_is_remainder_witness :
  amplicon (fst scenario_tagged) = slice (py "GGAAAACCGGTT") (Some (5 + 2)) None.
Proof.
  assert (H2 : 0 <= 2) by lia.
  exact (proj1 (proj2 (@amplicon_is_remainder
           [(py "AAAA", py "BC1")] 2 4 1 true [] scenario_tagger
           scenario_tagger (snd scenario_tagged) [] [] (py "@r")
           (py "GGAAAACCGGTT") (py "IIIIIIIIIIII") (fst scenario_tagged)
           scenario_tagger_built H2 eq_refl scenario_tagged_run))).
Defined.

(** ** Tagging never raises *)

(** C8, as stated, fails: for the barcodes A and T, with budget 1, every
    pattern is blacklisted, no word is added to the automaton, and
    [tag_read] raises [AttributeError]. *)
Lemma tag_read_raises_without_pattern :
  exists warned t,
    get_tagger [(py "x", py "A"); (py "y", py "T")] 2 4 = (warned, Ok t) /\
    Automaton.words (automaton t) = [] /\
    tag_read t (py "@r") (py "GGCC") (py "IIII") = Raise AttributeError.
Proof.
  eexists _, _. split; [vm_compute; reflexivity|].
  split; [reflexivity|]. vm_compute. reflexivity.
Qed.

(** C8, amended. A tagger is constructed with budget 1 without raising.
    When its automaton holds a word, that is, when a non-empty pattern is
    left in the final map, then from there on, after any reads it has
    tagged, [tag_read] returns a tagged read for every header, sequence
    and quality string: the barcode of every match that the scan yields
    is a key of [bc_to_id], every match lies within the read, and every
    name of [PREDS] is a key of the statistics. When it holds none,
    [tag_read] raises. *)
Theorem tag_read_never_raises (bc : dict str) (ll lp : Z) (use_stats : bool) :
  exists warned t,
    ReadTagger_init bc ll lp 1 use_stats = (warned, Ok t) /\
    (Automaton.has_word (automaton t) = false ->
     forall h s q, tag_read t h s q = Raise AttributeError) /\
    (Automaton.has_word (automaton t) = true ->
     forall (tagged_before : list (str * str * str)) (h s q : str),
     exists rs t0,
       tag_reads t tagged_before = Ok (rs, t0) /\
       (exists r t', tag_read t0 h s q = Ok (r, t')) /\
       (forall start end_ b, In (start, end_, b) (search_barcode t0 s) ->
          dict_get (bc_to_id t0) b <> None /\
          0 <= start < end_ /\ end_ <= len s) /\
       (forall st name, stats t0 = Some st -> In name (map fst PREDS) ->
          dict_get st name <> None)).
Proof.
  destruct (ReadTagger_init_budget_1 bc ll lp use_stats) as (w & t & Hinit).
  exists w, t. split; [exact Hinit|].
  destruct (ReadTagger_init_ok _ _ _ _ _ Hinit) as (Hinv & _).
  split; [intros Hnone h s q; apply tag_read_unbuilt, Hnone|].
  intros Hword before h s q.
  destruct (tag_reads_total before Hinv Hword)
    as (rs & t0 & Hruns & Hinv0 & _ & Haut0 & _).
  exists rs, t0. split; [exact Hruns|].
  split; [|split].
  - assert (Hword0 : Automaton.has_word (automaton t0) = true)
      by (rewrite Haut0; exact Hword).
    destruct (tag_read_total h s q Hinv0 Hword0) as (r & t' & Hrun & _). eauto.
  - intros start end_ b Hm.
    apply in_search_barcode in Hm; [|exact Hinv0].
    destruct Hm as (s0 & e0 & b0 & Heq & Hse & Hget). inversion Heq; subst.
    destruct (tinv_words Hinv0 _ Hget) as [Hb _].
    apply dict_key_get in Hb. destruct Hb as [v Hv].
    unfold len. split; [congruence|lia].
  - intros st name Hst Hname.
    assert (Hk : In name (keys st)) by (eapply (tinv_stats Hinv0); eassumption).
    apply dict_key_get in Hk. destruct Hk as [n Hn]. congruence.
Qed.

Lemma tag_read_never_raises_witness :
  exists rs t0,
    tag_reads scenario_tagger [(py "@r", py "GGAAAACCGGTT", py "IIIIIIIIIIII")]
    = Ok (rs, t0) /\
    exists r t', tag_read t0 (py "@s") (py "TTAAAT") (py "IIIIII") = Ok (r, t').
Proof.
  destruct (tag_read_never_raises [(py "AAAA", py "BC1")] 2 4 true)
    as (w & t & Hinit & _ & Hreturns).
  assert (Ht : t = scenario_tagger).
  { pose proof scenario_tagger_built as Hb. unfold get_tagger in Hb.
    change (bc_to_id_of [(py "BC1", py "AAAA")])
      with [(py "AAAA", py "BC1")] in Hb.
    rewrite Hb in Hinit. inversion Hinit. reflexivity. }
  subst t.
  destruct (Hreturns eq_refl
              [(py "@r", py "GGAAAACCGGTT", py "IIIIIIIIIIII")]
              (py "@s") (py "TTAAAT") (py "IIIIII"))
    as (rs & t0 & Hruns & Hrun & _).
  exists rs, t0. split; assumption.
Defined.

(** ** The statistics *)

Ltac eval_names :=
  repeat match goal with
  | |- context [str_eqb (py ?a) (py ?b)] =>
      let v := eval vm_compute in (str_eqb (py a) (py b)) in
      change (str_eqb (py a) (py b)) with v
  end.

Lemma hits_categories (r : TaggedRead) :
  hits PREDS r (py "n_no_barcode") + hits PREDS r (py "n_only_primer")
  + hits PREDS r (py "n_regular") = categories r.
Proof.
  unfold PREDS, categories. cbn [hits]. eval_names. cbn [andb].
  destruct (negb (truthy (barcode r))), (is_just_primer r), (is_regular r);
    reflexivity.
Qed.

(** A read whose barcode field is not the empty string is in exactly one
    of the three categories. *)
Lemma categories_one (r : TaggedRead) :
  barcode r <> Some [] -> categories r = 1.
Proof.
  unfold categories, is_regular, is_just_primer. intros H.
  destruct (barcode r) as [[|c b]|]; [contradiction| |reflexivity].
  simpl truthy. destruct (len (amplicon r) <=? tr_len_primer r); reflexivity.
Qed.

Lemma stat_step (t t' : ReadTagger) (st st' : dict Z) (r : TaggedRead)
  (name : string) :
  stats t = Some st -> stats t' = Some st' ->
  In (py name) (keys st) ->
  (forall k, dict_get st' k
             = option_map (fun n => n + hits PREDS r k) (dict_get st k)) ->
  stat t' name = stat t name + hits PREDS r (py name).
Proof.
  intros Hst Hst' Hin Hstep. unfold stat. rewrite Hst, Hst', Hstep.
  apply dict_key_get in Hin. destruct Hin as [n ->]. reflexivity.
Qed.

Lemma tag_reads_counts (t t' : ReadTagger) (reads : list (str * str * str))
  (rs : list TaggedRead) (st : dict Z) :
  tagger_inv t -> stats t = Some st ->
  (forall b id_, dict_get (bc_to_id t) b = Some id_ -> id_ <> []) ->
  tag_reads t reads = Ok (rs, t') ->
  Forall (fun r => categories r = 1) rs /\
  category_total t' = category_total t + Z.of_nat (length reads).
Proof.
  revert t rs st. induction reads as [|[[h s] q] reads IH];
    intros t rs st Hinv Hst Hids.
  - simpl. intros H; inversion H; subst. split; [constructor|lia].
  - simpl tag_reads.
    destruct (tag_read t h s q) as [[r t1]|e] eqn:Hrun; cbn [bind];
      [|discriminate].
    destruct (tag_reads t1 reads) as [[rs1 t2]|e] eqn:Hruns; cbn [bind];
      [|discriminate].
    intros H; inversion H; subst rs t'; clear H.
    destruct (tag_read_ok _ _ _ Hinv Hrun)
      as (Hinv1 & Hbc & _ & _ & _ & _ & Hstats).
    rewrite Hst in Hstats. destruct Hstats as (st1 & Hst1 & Hstep).
    assert (Hone : categories r = 1).
    { apply categories_one. pose proof (tag_read_fields _ _ _ _ Hrun) as Hf.
      destruct Hf as (_ & _ & _ & Hf).
      destruct (primary_match t s) as [[[bs be] b]|].
      - destruct Hf as (_ & Hb & _). rewrite Hb. intros E.
        apply (Hids _ _ E). reflexivity.
      - destruct Hf as (_ & Hb & _). rewrite Hb. discriminate. }
    destruct (IH t1 rs1 st1 Hinv1 Hst1) as (Hall & Htotal);
      [rewrite Hbc; exact Hids|exact Hruns|].
    split; [constructor; assumption|].
    rewrite Htotal. unfold category_total.
    assert (Hkey : forall name, In (py name) (map fst PREDS) ->
                                In (py name) (keys st))
      by (intros name Hn; eapply (tinv_stats Hinv); eassumption).
    rewrite (@stat_step t t1 st st1 r "n_no_barcode"),
            (@stat_step t t1 st st1 r "n_only_primer"),
            (@stat_step t t1 st st1 r "n_regular");
      try assumption; try (apply Hkey; simpl; auto 10).
    pose proof (hits_categories r) as Hh. rewrite Hone in Hh.
    change (length ((h, s, q) :: reads)) with (S (length reads)). lia.
Qed.

(** C10, as stated, fails: with the empty string as identifier, a read
    that is its barcode alone counts both as no-barcode and as
    only-primer, so that the three counters add up to 2 after one read. *)
Lemma category_total_counts_twice :
  exists t rs t',
    get_tagger [(py "", py "AAAA")] 2 4 = ([], Ok t) /\
    tag_reads t [(py "@r", py "AAAA", py "IIII")] = Ok (rs, t') /\
    stat t' "n_no_barcode" = 1 /\ stat t' "n_only_primer" = 1 /\
    stat t' "n_regular" = 0 /\
    category_total t' <> Z.of_nat (length [(py "@r", py "AAAA", py "IIII")]).
Proof.
  eexists _, _, _. split; [vm_compute; reflexivity|].
  split; [vm_compute; reflexivity|].
  repeat split; try (vm_compute; reflexivity). vm_compute. discriminate.
Qed.

(** C10, amended. For a tagger with statistics enabled whose barcode
    identifiers are all non-empty strings, every sequence of [tag_read]
    calls returns when the automaton holds a word, and after every
    sequence of calls that returns, each tagged read satisfies exactly one
    of the predicates no-barcode, just-primer and is-regular, and
    [n_no_barcode + n_only_primer + n_regular] is the number of reads
    tagged. *)
Theorem category_total_counts_reads (bc : dict str) (ll lp max_mm : Z)
  (warned : list warning) (t : ReadTagger) (reads : list (str * str * str)) :
  ReadTagger_init bc ll lp max_mm true = (warned, Ok t) ->
  Forall (fun item : str * str => snd item <> []) bc ->
  (Automaton.has_word (automaton t) = true ->
   exists rs t', tag_reads t reads = Ok (rs, t')) /\
  forall rs t',
    tag_reads t reads = Ok (rs, t') ->
    Forall (fun r => categories r = 1) rs /\
    stat t' "n_no_barcode" + stat t' "n_only_primer" + stat t' "n_regular"
    = Z.of_nat (length reads).
Proof.
  intros Hinit Hids.
  destruct (ReadTagger_init_ok _ _ _ _ _ Hinit)
    as (Hinv & Hbc & _ & _ & Hst & _).
  split.
  - intros Hword.
    destruct (tag_reads_total reads Hinv Hword) as (rs & t' & Hruns & _).
    eauto.
  - intros rs t' Hruns.
    destruct (@tag_reads_counts t t' reads rs initial_stats Hinv Hst)
      as (Hall & Htotal); [|exact Hruns|].
    { rewrite Hbc. intros b id_ Hget. apply dict_get_In in Hget.
      rewrite Forall_forall in Hids. apply (Hids _ Hget). }
    split; [exact Hall|].
    fold (category_total t'). rewrite Htotal.
    unfold category_total, stat. rewrite Hst. reflexivity.
Qed.

Lemma category_total_counts_reads_witness :
  Forall (fun r => categories r = 1) [fst scenario_tagged] /\
  stat (snd scenario_tagged) "n_no_barcode"
  + stat (snd scenario_tagged) "n_only_primer"
  + stat (snd scenario_tagged) "n_regular" = 1.
Proof.
  assert (Hids : Forall (fun item : str * str => snd item <> [])
                   [(py "AAAA", py "BC1")])
    by (repeat constructor; discriminate).
  refine (proj2 (@category_total_counts_reads
                   [(py "AAAA", py "BC1")] 2 4 1 [] scenario_tagger
                   [(py "@r", py "GGAAAACCGGTT", py "IIIIIIIIIIII")]
                   scenario_tagger_built Hids)
            [fst scenario_tagged] (snd scenario_tagged) _).
  vm_compute. reflexivity.
Defined.

(** ** One barcode alone never collides *)

Lemma NoDup_flat_map {A B} (f : A -> list B) (l : list A) :
  NoDup l -> (forall x, In x l -> NoDup (f x)) ->
  (forall x y z, In x l -> In y l -> In z (f x) -> In z (f y) -> x = y) ->
  NoDup (flat_map f l).
Proof.
  induction l as [|x l IH]; intros Hnd Hf Hdisj; simpl; [constructor|].
  inversion Hnd as [|? ? Hnin Hnd']; subst.
  apply NoDup_app.
  - apply Hf. left; reflexivity.
  - apply IH; [assumption| |].
    + intros y Hy. apply Hf. right; exact Hy.
    + intros y y' z Hy Hy'. apply Hdisj; right; assumption.
  - intros z Hz Hz'. apply in_flat_map in Hz'. destruct Hz' as (y & Hy & Hzy).
    assert (x = y) by (apply (Hdisj x y z); simpl; auto).
    subst y. contradiction.
Qed.

Lemma BASES_NoDup : NoDup BASES.
Proof.
  unfold BASES. repeat constructor; simpl; intuition discriminate.
Qed.

Lemma variants_at_NoDup (barcode : str) (i : nat) :
  NoDup (variants_at barcode i).
Proof.
  unfold variants_at. destruct (nth_error barcode i) as [c|] eqn:E;
    [|constructor].
  assert (Hi : (i < length barcode)%nat) by (apply nth_error_Some; congruence).
  apply NoDup_map_NoDup_ForallPairs.
  - intros m m' _ _ Heq.
    assert (H : nth_error (substitute barcode i m) i
                = nth_error (substitute barcode i m') i) by (rewrite Heq; reflexivity).
    rewrite !substitute_nth_same in H by assumption. congruence.
  - apply NoDup_filter, BASES_NoDup.
Qed.

Lemma variants_NoDup (barcode : str) : NoDup (variants barcode).
Proof.
  unfold variants. apply NoDup_flat_map.
  - apply seq_NoDup.
  - intros i _. apply variants_at_NoDup.
  - intros i j z _ _ Hi Hj.
    apply in_variants_at in Hi. destruct Hi as (c & m & Hc & _ & Hne & ->).
    apply in_variants_at in Hj. destruct Hj as (c' & m' & Hc' & _ & _ & Heq).
    destruct (Nat.eq_dec i j) as [|Hij]; [assumption|exfalso].
    assert (Hi : (i < length barcode)%nat) by (apply nth_error_Some; congruence).
    assert (Hj : (j < length barcode)%nat) by (apply nth_error_Some; congruence).
    assert (H : nth_error (substitute barcode i m) i
                = nth_error (substitute barcode j m') i) by (rewrite Heq; reflexivity).
    rewrite substitute_nth_same in H by assumption.
    rewrite substitute_nth_other in H by auto. congruence.
Qed.

Lemma barcode_not_variant (barcode : str) : ~ In barcode (variants barcode).
Proof.
  intros H. apply in_variants in H.
  destruct H as (i & c & m & Hc & _ & Hne & Heq).
  assert (Hi : (i < length barcode)%nat) by (apply nth_error_Some; congruence).
  assert (H : nth_error barcode i = nth_error (substitute barcode i m) i)
    by (rewrite <- Heq; reflexivity).
  rewrite substitute_nth_same in H by assumption. congruence.
Qed.

Lemma claim_pattern_fresh (barcode pattern : str) (st : index_state) :
  ~ In pattern (keys (st_found st)) ->
  claim_pattern barcode st pattern
  = IndexState (st_found st ++ [(pattern, barcode)])
      (st_blacklist st) (st_warnings st).
Proof.
  intros H. unfold claim_pattern.
  rewrite (proj2 (dict_get_None _ _) H).
  rewrite dict_set_fresh by assumption. reflexivity.
Qed.

Lemma claim_patterns_fresh (barcode : str) (patterns : list str)
  (st : index_state) :
  NoDup patterns ->
  (forall p, In p patterns -> ~ In p (keys (st_found st))) ->
  fold_left (claim_pattern barcode) patterns st
  = IndexState (st_found st ++ map (fun p => (p, barcode)) patterns)
      (st_blacklist st) (st_warnings st).
Proof.
  revert st. induction patterns as [|p ps IH]; intros st Hnd Hfresh; simpl.
  - rewrite app_nil_r. destruct st; reflexivity.
  - inversion Hnd as [|? ? Hnin Hnd']; subst.
    rewrite claim_pattern_fresh by (apply Hfresh; left; reflexivity).
    rewrite IH; simpl.
    + rewrite <- app_assoc. reflexivity.
    + assumption.
    + intros q Hq. rewrite keys_app, in_app_iff. simpl.
      intros [H|[H|[]]].
      * apply (Hfresh q); [right; assumption|assumption].
      * congruence.
Qed.

Lemma keys_map_pair (barcode : str) (patterns : list str) :
  keys (map (fun p => (p, barcode)) patterns) = patterns.
Proof.
  unfold keys. rewrite map_map. simpl. apply map_id.
Qed.

(** The index of a single barcode: every pattern is claimed, nothing is
    blacklisted, and there is no warning. *)
Lemma get_all_barcodes_single (barcode : str) :
  get_all_barcodes [barcode] 1
  = ([], Ok (map (fun p => (p, barcode)) (barcode :: variants barcode), [])).
Proof.
  unfold get_all_barcodes.
  rewrite claim_all_cons, get_mismatches_1. cbv zeta. simpl stop. simpl yields.
  rewrite claim_patterns_fresh.
  - reflexivity.
  - constructor; [apply barcode_not_variant|apply variants_NoDup].
  - intros p _ [].
Qed.

(** ** The same sequence under two identifiers *)

Lemma bc_to_id_of_duplicate (id1 id2 S : str) :
  bc_to_id_of [(id1, S); (id2, S)] = [(S, id2)].
Proof. unfold bc_to_id_of. simpl. rewrite str_eqb_refl. reflexivity. Qed.

(** C3, as stated, fails: for the sequence AAAA under the identifiers id1
    and id2 no warning is emitted and AAAA is not a key of the blacklist. *)
Lemma duplicate_sequence_not_blacklisted :
  exists t,
    get_tagger [(py "id1", py "AAAA"); (py "id2", py "AAAA")] 2 4
    = ([], Ok t) /\
    dict_get (blacklist t) (py "AAAA") = None.
Proof. eexists. split; [vm_compute; reflexivity|reflexivity]. Qed.

(** C3, amended. When the same sequence [S] is supplied under two
    identifiers, the dictionary comprehension of [get_tagger] keeps the
    single entry of [S] with the later identifier, so the tagger is the one
    built from the later pair alone: no collision is detected, the
    blacklist is empty, no warning is emitted, and [S] stays a pattern of
    the final map. *)
Theorem duplicate_sequence_collapses (id1 id2 S : str) (ll lp : Z) :
  get_tagger [(id1, S); (id2, S)] ll lp = get_tagger [(id2, S)] ll lp /\
  exists t,
    get_tagger [(id1, S); (id2, S)] ll lp = ([], Ok t) /\
    bc_to_id t = [(S, id2)] /\
    blacklist t = [] /\
    dict_get (Automaton.words (automaton t)) S = Some S.
Proof.
  split.
  - unfold get_tagger. rewrite bc_to_id_of_duplicate. reflexivity.
  - unfold get_tagger. rewrite bc_to_id_of_duplicate.
    unfold ReadTagger_init. simpl keys.
    rewrite get_all_barcodes_single. cbn [bind].
    eexists. split; [reflexivity|].
    cbn [bc_to_id blacklist automaton]. split; [reflexivity|].
    split; [reflexivity|].
    rewrite automaton_of_found.
    + simpl. rewrite str_eqb_refl. reflexivity.
    + unfold dict_wf. rewrite keys_map_pair.
      constructor; [apply barcode_not_variant|apply variants_NoDup].
Qed.

(** * Further properties *)

(** ** get_all_barcodes as a sequence of claims *)

Lemma fold_claims_of_barcode (b : str) (patterns : list str)
  (st : index_state) :
  fold_left claim_event (map (fun p => (p, b)) patterns) st
  = fold_left (claim_pattern b) patterns st.
Proof.
  revert st. induction patterns as [|p ps IH]; intros st; simpl; [reflexivity|].
  apply IH.
Qed.

Lemma claim_all_events (max_mm : Z) (barcodes : list str)
  (st st' : index_state) :
  claim_all max_mm barcodes st = (st', None) ->
  st' = fold_left claim_event (events max_mm barcodes) st.
Proof.
  revert st. induction barcodes as [|b bs IH]; intros st.
  - simpl. intros H; inversion H; reflexivity.
  - rewrite claim_all_cons. cbv zeta.
    destruct (stop (get_mismatches b max_mm)) eqn:E; [discriminate|].
    intros H. apply IH in H. rewrite H.
    unfold events.
    change (flat_map ?f (b :: bs)) with (f b ++ flat_map f bs).
    rewrite fold_left_app, fold_claims_of_barcode. reflexivity.
Qed.

Lemma events_inv_initial : events_inv [] (IndexState [] [] []).
Proof.
  constructor; simpl; try contradiction; try discriminate.
  - intros p. split; [contradiction|]. intros (w & [] & _).
Qed.

Lemma pair_mem_added (a b : str) (s : pair_set) (x y : str) :
  pair_mem (x, y) (pair_add (b, a) (pair_add (a, b) s)) = true <->
  (x = b /\ y = a) \/ (x = a /\ y = b) \/ pair_mem (x, y) s = true.
Proof.
  rewrite !pair_mem_add, !orb_true_iff, !pair_eqb_eq.
  split; intros [H|[H|H]]; auto; [inversion H|inversion H|destruct H|destruct H];
    subst; auto.
Qed.

(** One claim of a non-empty barcode keeps the invariant. *)
Lemma claim_event_inv (evs : list (str * str)) (st : index_state)
  (p b : str) :
  events_inv evs st -> b <> [] ->
  (forall q a, In (q, a) evs -> a <> []) ->
  events_inv (evs ++ [(p, b)]) (claim_event st (p, b)).
Proof.
  intros [Hcl Hfd Hamb Hpairs Hinh Hwd Hwg] Hb Hne.
  unfold claim_event, claim_pattern. cbn [fst snd].
  destruct (dict_get (st_found st) p) as [prev|] eqn:Eprev.
  - (* the pattern is claimed already *)
    assert (Hprev : In (p, prev) evs) by (apply Hfd; exact Eprev).
    assert (Htruthy : truthy (Some prev) = true).
    { pose proof (Hne _ _ Hprev). destruct prev; [congruence|reflexivity]. }
    rewrite Htruthy. constructor; cbn [st_found st_blacklist st_warnings].
    + intros q a Hin. destruct (str_eq_dec p q) as [<-|Hpq].
      * rewrite dict_get_set_same. eauto.
      * rewrite dict_get_set_other by assumption.
        apply in_app_or in Hin. destruct Hin as [Hin|[Hin|[]]].
        -- eapply Hcl, Hin.
        -- inversion Hin; congruence.
    + intros q c. destruct (str_eq_dec p q) as [<-|Hpq].
      * rewrite dict_get_set_same. intros H; inversion H; subst.
        apply in_or_app. right. left. reflexivity.
      * rewrite dict_get_set_other by assumption. intros H.
        apply in_or_app. left. apply Hfd, H.
    + intros q a c Hin. destruct (str_eq_dec p q) as [<-|Hpq].
      * intros _ _. apply keys_dict_set. left. reflexivity.
      * rewrite dict_get_set_other by assumption. intros Hc Hac.
        apply keys_dict_set. right.
        apply in_app_or in Hin. destruct Hin as [Hin|[Hin|[]]].
        -- eapply Hamb; eassumption.
        -- inversion Hin; congruence.
    + intros q s x y. destruct (str_eq_dec p q) as [<-|Hpq].
      * rewrite dict_get_set_same. intros H; inversion H; subst; clear H.
        rewrite pair_mem_added. rewrite !in_app_iff. simpl.
        intros [[-> ->]|[[-> ->]|Hmem]]; auto.
        unfold setdefault in Hmem.
        destruct (dict_get (st_blacklist st) p) as [s0|] eqn:E; [|discriminate].
        destruct (Hpairs _ _ _ _ E Hmem). auto.
      * rewrite dict_get_set_other by assumption. intros Hs Hmem.
        destruct (Hpairs _ _ _ _ Hs Hmem). rewrite !in_app_iff. auto.
    + intros q s. destruct (str_eq_dec p q) as [<-|Hpq].
      * rewrite dict_get_set_same. intros H; inversion H; subst.
        exists b, prev. apply pair_mem_added. auto.
      * rewrite dict_get_set_other by assumption. apply Hinh.
    + intros q. rewrite keys_dict_set. split.
      * intros [->|Hq].
        -- exists (Warn p prev b). split; [|reflexivity].
           apply in_or_app. right. left. reflexivity.
        -- apply Hwd in Hq. destruct Hq as (w & Hw & Hwp).
           exists w. split; [apply in_or_app; left; exact Hw|exact Hwp].
      * intros (w & Hw & Hwp). apply in_app_or in Hw.
        destruct Hw as [Hw|[<-|[]]].
        -- right. apply Hwd. eauto.
        -- left. symmetry. exact Hwp.
    + intros w Hw. apply in_app_or in Hw. destruct Hw as [Hw|[<-|[]]].
      * destruct (Hwg _ Hw) as (s & Hs & Hmem).
        destruct (str_eq_dec p (w_pattern w)) as [Hpw|Hpw].
        -- rewrite <- Hpw. rewrite dict_get_set_same. eexists. split; [reflexivity|].
           apply pair_mem_added. right. right. unfold setdefault.
           rewrite <- Hpw in Hs. rewrite Hs. exact Hmem.
        -- rewrite dict_get_set_other by assumption. eauto.
      * cbn [w_pattern w_previous w_barcode].
        rewrite dict_get_set_same. eexists. split; [reflexivity|].
        apply pair_mem_added. auto.
  - (* the pattern is new *)
    constructor; cbn [st_found st_blacklist st_warnings]; try assumption.
    + intros q a Hin. destruct (str_eq_dec p q) as [<-|Hpq].
      * rewrite dict_get_set_same. eauto.
      * rewrite dict_get_set_other by assumption.
        apply in_app_or in Hin. destruct Hin as [Hin|[Hin|[]]].
        -- eapply Hcl, Hin.
        -- inversion Hin; congruence.
    + intros q c. destruct (str_eq_dec p q) as [<-|Hpq].
      * rewrite dict_get_set_same. intros H; inversion H; subst.
        apply in_or_app. right. left. reflexivity.
      * rewrite dict_get_set_other by assumption. intros H.
        apply in_or_app. left. apply Hfd, H.
    + intros q a c Hin. destruct (str_eq_dec p q) as [<-|Hpq].
      * rewrite dict_get_set_same. intros H Hac. inversion H; subst c.
        apply in_app_or in Hin. destruct Hin as [Hin|[Hin|[]]].
        -- destruct (Hcl _ _ Hin) as [c Hc]. congruence.
        -- inversion Hin; congruence.
      * rewrite dict_get_set_other by assumption. intros Hc Hac.
        apply in_app_or in Hin. destruct Hin as [Hin|[Hin|[]]].
        -- eapply Hamb; eassumption.
        -- inversion Hin; congruence.
    + intros q s x y Hs Hmem. destruct (Hpairs _ _ _ _ Hs Hmem).
      rewrite !in_app_iff. auto.
Qed.

Lemma claim_events_inv (todo done : list (str * str)) (st : index_state) :
  events_inv done st ->
  (forall q a, In (q, a) (done ++ todo) -> a <> []) ->
  events_inv (done ++ todo) (fold_left claim_event todo st).
Proof.
  revert done st. induction todo as [|[p b] todo IH]; intros done st Hinv Hne.
  - simpl. rewrite app_nil_r. exact Hinv.
  - simpl fold_left.
    replace (done ++ (p, b) :: todo) with ((done ++ [(p, b)]) ++ todo)
      by (rewrite <- app_assoc; reflexivity).
    apply IH.
    + apply claim_event_inv; [exact Hinv| |].
      * apply (Hne p b). apply in_or_app. right. left. reflexivity.
      * intros q a Hin. apply (Hne q a). apply in_or_app. left. exact Hin.
    + intros q a Hin. apply (Hne q a). rewrite <- app_assoc in Hin. exact Hin.
Qed.

Lemma in_events (max_mm : Z) (barcodes : list str) (p b : str) :
  In (p, b) (events max_mm barcodes) <->
  In b barcodes /\ In p (yields (get_mismatches b max_mm)).
Proof.
  unfold events. rewrite in_flat_map. split.
  - intros (a & Ha & Hin). apply in_map_iff in Hin.
    destruct Hin as (q & Heq & Hq). inversion Heq; subst. auto.
  - intros [Hb Hp]. exists b. split; [exact Hb|].
    apply in_map_iff. exists p. auto.
Qed.

Lemma yields_NoDup (barcode : str) (max_mm : Z) :
  NoDup (yields (get_mismatches barcode max_mm)).
Proof.
  destruct (Z.eq_dec max_mm 1) as [->|Hne].
  - rewrite get_mismatches_1. simpl yields.
    constructor; [apply barcode_not_variant|apply variants_NoDup].
  - rewrite get_mismatches_not_1 by assumption. simpl yields.
    constructor; [intros []|constructor].
Qed.

Lemma events_NoDup (max_mm : Z) (barcodes : list str) :
  NoDup barcodes -> NoDup (events max_mm barcodes).
Proof.
  intros Hnd. unfold events. apply NoDup_flat_map.
  - exact Hnd.
  - intros b _. apply NoDup_map_NoDup_ForallPairs; [|apply yields_NoDup].
    intros p q _ _ H. inversion H; reflexivity.
  - intros a b [p c] _ _ Ha Hb.
    apply in_map_iff in Ha. destruct Ha as (? & Ha & _).
    apply in_map_iff in Hb. destruct Hb as (? & Hb & _).
    inversion Ha; inversion Hb; congruence.
Qed.

(** When no claim is made twice, the two barcodes of a blacklisted pair
    differ. *)
Lemma claim_events_distinct (todo done : list (str * str))
  (st : index_state) :
  events_inv done st -> NoDup (done ++ todo) ->
  (forall q a, In (q, a) (done ++ todo) -> a <> []) ->
  (forall p s x y, dict_get (st_blacklist st) p = Some s ->
                   pair_mem (x, y) s = true -> x <> y) ->
  forall p s x y,
    dict_get (st_blacklist (fold_left claim_event todo st)) p = Some s ->
    pair_mem (x, y) s = true -> x <> y.
Proof.
  revert done st. induction todo as [|[q b] todo IH];
    intros done st Hinv Hnd Hne Hdist; [exact Hdist|].
  simpl fold_left.
  assert (Hfresh : ~ In (q, b) done).
  { apply NoDup_remove_2 in Hnd. intros H. apply Hnd, in_or_app. auto. }
  apply (IH (done ++ [(q, b)])).
  - apply claim_event_inv; [exact Hinv| |].
    + apply (Hne q b). apply in_or_app. right. left. reflexivity.
    + intros r a Hin. apply (Hne r a). apply in_or_app. left. exact Hin.
  - rewrite <- app_assoc. exact Hnd.
  - intros r a Hin. apply (Hne r a). rewrite <- app_assoc in Hin. exact Hin.
  - unfold claim_event, claim_pattern. cbn [fst snd].
    destruct (dict_get (st_found st) q) as [prev|] eqn:Eprev;
      [destruct (truthy (Some prev))|];
      cbn [st_blacklist]; try exact Hdist.
    intros p s x y. destruct (str_eq_dec q p) as [<-|Hqp].
    + rewrite dict_get_set_same. intros H; inversion H; subst; clear H.
      rewrite pair_mem_added.
      assert (Hprev : In (q, prev) done) by (apply (ev_found Hinv), Eprev).
      intros [[-> ->]|[[-> ->]|Hmem]]; try (intros ->; contradiction).
      unfold setdefault in Hmem.
      destruct (dict_get (st_blacklist st) q) as [s0|] eqn:E; [|discriminate].
      eapply Hdist; eassumption.
    + rewrite dict_get_set_other by assumption. apply Hdist.
Qed.

(** The state that [get_all_barcodes] returns from. *)
Lemma get_all_barcodes_state (barcodes : list str) (max_mm : Z)
  (warned : list warning) (found : dict str) (bl : dict pair_set) :
  get_all_barcodes barcodes max_mm = (warned, Ok (found, bl)) ->
  exists st,
    st = fold_left claim_event (events max_mm barcodes) (IndexState [] [] []) /\
    warned = st_warnings st /\ bl = st_blacklist st /\
    (forall p, In p (keys bl) -> dict_get found p = None) /\
    (forall p, ~ In p (keys bl) -> dict_get found p = dict_get (st_found st) p).
Proof.
  intros Hres.
  destruct (claim_all max_mm barcodes (IndexState [] [] [])) as [st e] eqn:Hrun.
  destruct e as [e|].
  { unfold get_all_barcodes in Hres. rewrite Hrun in Hres. discriminate. }
  destruct (get_all_barcodes_ok _ _ Hrun) as (found' & Hres' & _ & Hnone & Hother).
  rewrite Hres in Hres'. inversion Hres'; subst.
  exists st. split; [apply claim_all_events, Hrun|]. auto.
Qed.

Lemma events_nonempty (max_mm : Z) (barcodes : list str) :
  Forall (fun b => b <> []) barcodes ->
  forall q a, In (q, a) ([] ++ events max_mm barcodes) -> a <> [].
Proof.
  intros Hne q a Hin. simpl in Hin. apply in_events in Hin.
  rewrite Forall_forall in Hne. apply Hne. tauto.
Qed.

(** ** What the index holds *)

Lemma scenario2_index_built :
  get_all_barcodes [py "AAAA"; py "AAAT"] 1
  = (scenario2_warned, Ok (scenario2_found, scenario2_blacklist)).
Proof. vm_compute. reflexivity. Qed.

Lemma scenario2_nonempty :
  Forall (fun b : str => b <> []) [py "AAAA"; py "AAAT"].
Proof. repeat constructor; discriminate. Qed.

Lemma scenario2_NoDup : NoDup [py "AAAA"; py "AAAT"].
Proof.
  constructor; [|constructor; [intros []|constructor]].
  intros [H|[]]. discriminate.
Qed.

(** X1. The final pattern map is unambiguous: a pattern that it maps to
    the barcode [b] is yielded by the expansion of [b], and by the
    expansion of no other barcode of the input. *)
Theorem final_map_unambiguous (barcodes : list str) (max_mm : Z)
  (warned : list warning) (found : dict str) (bl : dict pair_set)
  (p b : str) :
  get_all_barcodes barcodes max_mm = (warned, Ok (found, bl)) ->
  Forall (fun b => b <> []) barcodes ->
  dict_get found p = Some b ->
  In b barcodes /\ In p (yields (get_mismatches b max_mm)) /\
  forall a, In a barcodes -> In p (yields (get_mismatches a max_mm)) -> a = b.
Proof.
  intros Hres Hne Hp.
  destruct (get_all_barcodes_state _ _ Hres) as (st & Hst & _ & Hbl & Hnone & Hother).
  pose proof (@claim_events_inv (events max_mm barcodes) [] _
                events_inv_initial (events_nonempty max_mm Hne)) as Hinv.
  simpl app in Hinv. rewrite <- Hst in Hinv.
  assert (Hnot : ~ In p (keys bl)).
  { intros Hin. rewrite Hnone in Hp by assumption. discriminate. }
  rewrite Hother in Hp by assumption.
  pose proof (@ev_found _ _ Hinv _ _ Hp) as Hev. apply in_events in Hev.
  split; [tauto|]. split; [tauto|].
  intros a Ha Hpa. destruct (str_eq_dec a b) as [|Hab]; [assumption|exfalso].
  apply Hnot. rewrite Hbl. eapply (ev_ambiguous Hinv); [|exact Hp|exact Hab].
  apply in_events. auto.
Qed.

Lemma final_map_unambiguous_witness :
  In (py "AAAT") [py "AAAA"; py "AAAT"] /\
  In (py "TAAT") (yields (get_mismatches (py "AAAT") 1)) /\
  forall a, In a [py "AAAA"; py "AAAT"] ->
            In (py "TAAT") (yields (get_mismatches a 1)) -> a = py "AAAT".
Proof.
  refine (@final_map_unambiguous _ 1 _ _ _ (py "TAAT") (py "AAAT")
            scenario2_index_built scenario2_nonempty _).
  vm_compute. reflexivity.
Defined.

(** X2. A pattern is a key of the blacklist exactly when the expansions of
    two different barcodes of the input both yield it. *)
Theorem blacklisted_iff_shared (barcodes : list str) (max_mm : Z)
  (warned : list warning) (found : dict str) (bl : dict pair_set) (p : str) :
  get_all_barcodes barcodes max_mm = (warned, Ok (found, bl)) ->
  Forall (fun b => b <> []) barcodes ->
  NoDup barcodes ->
  (In p (keys bl) <->
   exists a b, In a barcodes /\ In b barcodes /\ a <> b /\
     In p (yields (get_mismatches a max_mm)) /\
     In p (yields (get_mismatches b max_mm))).
Proof.
  intros Hres Hne Hnd.
  destruct (get_all_barcodes_state _ _ Hres) as (st & Hst & _ & Hbl & _).
  pose proof (@claim_events_inv (events max_mm barcodes) [] _
                events_inv_initial (events_nonempty max_mm Hne)) as Hinv.
  simpl app in Hinv. rewrite <- Hst in Hinv. rewrite Hbl. split.
  - intros Hin. apply dict_key_get in Hin. destruct Hin as [s Hs].
    destruct (@ev_inhabited _ _ Hinv _ _ Hs) as (x & y & Hmem).
    destruct (@ev_pairs _ _ Hinv _ _ _ _ Hs Hmem) as [Hx Hy].
    apply in_events in Hx. apply in_events in Hy.
    exists x, y. repeat split; try tauto.
    rewrite Hst in Hs.
    refine (@claim_events_distinct (events max_mm barcodes) [] _
              events_inv_initial _ (events_nonempty max_mm Hne) _
              p s x y Hs Hmem).
    + apply events_NoDup, Hnd.
    + intros ? ? ? ?; discriminate.
  - intros (a & b & Ha & Hb & Hab & Hpa & Hpb).
    assert (Hea : In (p, a) (events max_mm barcodes)) by (apply in_events; auto).
    assert (Heb : In (p, b) (events max_mm barcodes)) by (apply in_events; auto).
    destruct (@ev_claimed _ _ Hinv _ _ Hea) as [c Hc].
    destruct (str_eq_dec a c) as [<-|Hac].
    + eapply (ev_ambiguous Hinv); [exact Heb|exact Hc|congruence].
    + eapply (ev_ambiguous Hinv); [exact Hea|exact Hc|exact Hac].
Qed.

Lemma blacklisted_iff_shared_witness :
  In (py "AAAG") (keys scenario2_blacklist) <->
  exists a b, In a [py "AAAA"; py "AAAT"] /\ In b [py "AAAA"; py "AAAT"] /\
    a <> b /\
    In (py "AAAG") (yields (get_mismatches a 1)) /\
    In (py "AAAG") (yields (get_mismatches b 1)).
Proof.
  exact (@blacklisted_iff_shared _ 1 _ _ _ (py "AAAG")
           scenario2_index_built scenario2_nonempty scenario2_NoDup).
Defined.

(** X3. Every pair stored in the blacklist under a pattern consists of two
    different barcodes of the input whose expansions both yield the
    pattern. *)
Theorem blacklisted_pairs_collide (barcodes : list str) (max_mm : Z)
  (warned : list warning) (found : dict str) (bl : dict pair_set)
  (p : str) (s : pair_set) (x y : str) :
  get_all_barcodes barcodes max_mm = (warned, Ok (found, bl)) ->
  Forall (fun b => b <> []) barcodes ->
  NoDup barcodes ->
  dict_get bl p = Some s ->
  pair_mem (x, y) s = true ->
  In x barcodes /\ In y barcodes /\ x <> y /\
  In p (yields (get_mismatches x max_mm)) /\
  In p (yields (get_mismatches y max_mm)).
Proof.
  intros Hres Hne Hnd Hs Hmem.
  destruct (get_all_barcodes_state _ _ Hres) as (st & Hst & _ & Hbl & _).
  pose proof (@claim_events_inv (events max_mm barcodes) [] _
                events_inv_initial (events_nonempty max_mm Hne)) as Hinv.
  simpl app in Hinv. rewrite <- Hst in Hinv. rewrite Hbl in Hs.
  destruct (@ev_pairs _ _ Hinv _ _ _ _ Hs Hmem) as [Hx Hy].
  apply in_events in Hx. apply in_events in Hy.
  repeat split; try tauto.
  rewrite Hst in Hs.
  refine (@claim_events_distinct (events max_mm barcodes) [] _
            events_inv_initial _ (events_nonempty max_mm Hne) _
            p s x y Hs Hmem).
  - apply events_NoDup, Hnd.
  - intros ? ? ? ?; discriminate.
Qed.

Lemma blacklisted_pairs_collide_witness :
  In (py "AAAA") [py "AAAA"; py "AAAT"] /\
  In (py "AAAT") [py "AAAA"; py "AAAT"] /\
  py "AAAA" <> py "AAAT" /\
  In (py "AAAC") (yields (get_mismatches (py "AAAA") 1)) /\
  In (py "AAAC") (yields (get_mismatches (py "AAAT") 1)).
Proof.
  refine (@blacklisted_pairs_collide _ 1 _ _ _ (py "AAAC")
            [(py "AAAA", py "AAAT"); (py "AAAT", py "AAAA")]
            (py "AAAA") (py "AAAT")
            scenario2_index_built scenario2_nonempty scenario2_NoDup _ _).
  - vm_compute. reflexivity.
  - vm_compute. reflexivity.
Defined.

(** X4. No pattern is lost: a pattern yielded by the expansion of a barcode
    of the input is either a key of the final map, mapped to that barcode,
    or a key of the blacklist, and then absent from the final map. *)
Theorem every_pattern_accounted (barcodes : list str) (max_mm : Z)
  (warned : list warning) (found : dict str) (bl : dict pair_set)
  (a p : str) :
  get_all_barcodes barcodes max_mm = (warned, Ok (found, bl)) ->
  Forall (fun b => b <> []) barcodes ->
  In a barcodes ->
  In p (yields (get_mismatches a max_mm)) ->
  (dict_get found p = Some a /\ ~ In p (keys bl)) \/
  (dict_get found p = None /\ In p (keys bl)).
Proof.
  intros Hres Hne Ha Hp.
  destruct (get_all_barcodes_state _ _ Hres) as (st & Hst & _ & Hbl & Hnone & Hother).
  pose proof (@claim_events_inv (events max_mm barcodes) [] _
                events_inv_initial (events_nonempty max_mm Hne)) as Hinv.
  simpl app in Hinv. rewrite <- Hst in Hinv.
  destruct (in_dec str_eq_dec p (keys bl)) as [Hin|Hnin].
  - right. auto.
  - left. split; [|exact Hnin]. rewrite Hother by assumption.
    assert (Hev : In (p, a) (events max_mm barcodes)) by (apply in_events; auto).
    destruct (@ev_claimed _ _ Hinv _ _ Hev) as [c Hc]. rewrite Hc. f_equal.
    destruct (str_eq_dec a c) as [|Hac]; [congruence|exfalso].
    apply Hnin. rewrite Hbl. eapply (ev_ambiguous Hinv); eassumption.
Qed.

Lemma every_pattern_accounted_witness :
  (dict_get scenario2_found (py "AAAT") = Some (py "AAAT") /\
   ~ In (py "AAAT") (keys scenario2_blacklist)) \/
  (dict_get scenario2_found (py "AAAT") = None /\
   In (py "AAAT") (keys scenario2_blacklist)).
Proof.
  refine (@every_pattern_accounted _ 1 _ _ _ (py "AAAT") (py "AAAT")
            scenario2_index_built scenario2_nonempty _ _).
  - simpl. auto.
  - vm_compute. auto.
Defined.

(** X5. The warnings tell the blacklist: a pattern is a key of the
    blacklist exactly when a warning names it, and the two barcodes that a
    warning names are stored as a pair under its pattern. *)
Theorem warnings_tell_blacklist (barcodes : list str) (max_mm : Z)
  (warned : list warning) (found : dict str) (bl : dict pair_set) :
  get_all_barcodes barcodes max_mm = (warned, Ok (found, bl)) ->
  Forall (fun b => b <> []) barcodes ->
  (forall p, In p (keys bl) <-> exists w, In w warned /\ w_pattern w = p) /\
  (forall w, In w warned ->
     exists s, dict_get bl (w_pattern w) = Some s /\
               pair_mem (w_previous w, w_barcode w) s = true) /\
  (warned = [] <-> bl = []).
Proof.
  intros Hres Hne.
  destruct (get_all_barcodes_state _ _ Hres) as (st & Hst & Hw & Hbl & _).
  pose proof (@claim_events_inv (events max_mm barcodes) [] _
                events_inv_initial (events_nonempty max_mm Hne)) as Hinv.
  simpl app in Hinv. rewrite <- Hst in Hinv. rewrite Hw, Hbl.
  split; [apply (ev_warned Hinv)|]. split; [apply (ev_warning Hinv)|].
  split.
  - intros Hnil. destruct (st_blacklist st) as [|[p s] rest] eqn:E; [reflexivity|].
    assert (Hin : In p (keys (st_blacklist st))) by (rewrite E; left; reflexivity).
    apply (ev_warned Hinv) in Hin. destruct Hin as (w & Hin & _).
    rewrite Hnil in Hin. contradiction.
  - intros Hnil. destruct (st_warnings st) as [|w rest] eqn:E; [reflexivity|].
    assert (Hin : In w (st_warnings st)) by (rewrite E; left; reflexivity).
    apply (ev_warning Hinv) in Hin. destruct Hin as (s & Hs & _).
    rewrite Hnil in Hs. discriminate.
Qed.

Lemma warnings_tell_blacklist_witness :
  scenario2_warned = [] <-> scenario2_blacklist = [].
Proof.
  exact (proj2 (proj2 (@warnings_tell_blacklist _ 1 _ _ _
           scenario2_index_built scenario2_nonempty))).
Defined.

(** ** A budget other than 1 *)

Lemma get_all_barcodes_budget_not_1 (b : str) (rest : list str) (max_mm : Z) :
  max_mm <> 1 ->
  get_all_barcodes (b :: rest) max_mm = ([], Raise TypeError).
Proof.
  intros Hne. unfold get_all_barcodes.
  rewrite claim_all_cons, get_mismatches_not_1 by assumption. reflexivity.
Qed.

(** X6. With a budget other than 1, constructing a tagger raises as soon
    as there is a barcode, and no warning is emitted before; without
    barcodes the expansion is never called, and the construction returns,
    whatever the budget, a tagger to whose automaton no word was added and
    whose blacklist is empty. *)
Theorem init_budget_not_1 (bc : dict str) (ll lp max_mm : Z)
  (use_stats : bool) :
  max_mm <> 1 ->
  (bc <> [] ->
   ReadTagger_init bc ll lp max_mm use_stats = ([], Raise TypeError)) /\
  exists t,
    ReadTagger_init [] ll lp max_mm use_stats = ([], Ok t) /\
    Automaton.words (automaton t) = [] /\ blacklist t = [].
Proof.
  intros Hne. split.
  - intros Hbc. destruct bc as [|[b id_] bc]; [congruence|].
    unfold ReadTagger_init. simpl keys.
    rewrite get_all_barcodes_budget_not_1 by assumption. reflexivity.
  - eexists. split; [reflexivity|]. split; reflexivity.
Qed.

Lemma init_budget_not_1_witness :
  ReadTagger_init [(py "AAAA", py "BC1")] 2 4 0 true = ([], Raise TypeError).
Proof.
  assert (H0 : 0 <> 1) by discriminate.
  refine (proj1 (@init_budget_not_1 [(py "AAAA", py "BC1")] 2 4 0 true H0) _).
  discriminate.
Defined.

(** ** get_tagger *)

Lemma bc_to_id_of_snoc (l : list (str * str)) (id_ bc : str) :
  bc_to_id_of (l ++ [(id_, bc)]) = dict_set (bc_to_id_of l) bc id_.
Proof. unfold bc_to_id_of. rewrite fold_left_app. reflexivity. Qed.

(** X7. The dictionary that [get_tagger] builds holds every sequence once,
    and gives a sequence the identifier of the last pair that has it;
    a sequence of no pair has no entry. *)
Theorem bc_to_id_last_pair_wins (id_to_bc : list (str * str)) (bc : str) :
  dict_wf (bc_to_id_of id_to_bc) /\
  dict_get (bc_to_id_of id_to_bc) bc
  = option_map fst (find (fun p => str_eqb (snd p) bc) (rev id_to_bc)).
Proof.
  induction id_to_bc as [|[id_ b] l [IHwf IHget]] using rev_ind.
  - split; [constructor|reflexivity].
  - rewrite bc_to_id_of_snoc. split; [apply dict_wf_set, IHwf|].
    rewrite rev_app_distr. simpl rev. simpl app. cbn [find snd].
    destruct (str_eqb b bc) eqn:E.
    + apply str_eqb_eq in E. subst b. rewrite dict_get_set_same. reflexivity.
    + apply str_eqb_neq in E. rewrite dict_get_set_other by assumption.
      exact IHget.
Qed.

(** ** Taggers in use *)

Lemma claim_events_found (todo done : list (str * str)) (st : index_state) :
  (forall p b, dict_get (st_found st) p = Some b -> In (p, b) done) ->
  forall p b, dict_get (st_found (fold_left claim_event todo st)) p = Some b ->
              In (p, b) (done ++ todo).
Proof.
  revert done st. induction todo as [|[q a] todo IH]; intros done st Hst p b.
  - simpl. rewrite app_nil_r. apply Hst.
  - simpl fold_left. intros H.
    replace (done ++ (q, a) :: todo) with ((done ++ [(q, a)]) ++ todo)
      by (rewrite <- app_assoc; reflexivity).
    revert H. apply IH. clear p b. intros p b.
    assert (Hf : st_found (claim_event st (q, a))
                 = dict_set (st_found st) q a).
    { unfold claim_event, claim_pattern. cbn [fst snd].
      destruct (dict_get (st_found st) q) as [prev|];
        [destruct (truthy (Some prev))|]; reflexivity. }
    rewrite Hf. destruct (str_eq_dec q p) as [<-|Hqp].
    + rewrite dict_get_set_same. intros H; inversion H; subst.
      apply in_or_app. right. left. reflexivity.
    + rewrite dict_get_set_other by assumption. intros H.
      apply in_or_app. left. apply Hst, H.
Qed.

(** Every pattern of the final map is yielded by the expansion of its
    barcode, with budget 1. *)
Lemma final_map_generated (barcodes : list str) (max_mm : Z)
  (warned : list warning) (found : dict str) (bl : dict pair_set)
  (p b : str) :
  get_all_barcodes barcodes max_mm = (warned, Ok (found, bl)) ->
  dict_get found p = Some b ->
  In p (yields (get_mismatches b 1)).
Proof.
  intros Hres Hp.
  destruct (get_all_barcodes_state _ _ Hres) as (st & Hst & _ & _ & Hnone & Hother).
  assert (Hnot : ~ In p (keys bl)).
  { intros Hin. rewrite Hnone in Hp by assumption. discriminate. }
  rewrite Hother, Hst in Hp by assumption.
  apply (@claim_events_found (events max_mm barcodes) []) in Hp;
    [|intros ? ? H; discriminate].
  simpl in Hp. apply in_events in Hp. destruct Hp as [Hb Hin].
  destruct (Z.eq_dec max_mm 1) as [->|Hne]; [exact Hin|].
  destruct barcodes as [|b0 rest]; [contradiction|].
  rewrite get_all_barcodes_budget_not_1 in Hres by assumption. discriminate.
Qed.

Lemma in_use_inv (bc : dict str) (ll lp : Z) (t0 : ReadTagger) :
  in_use bc ll lp t0 ->
  tagger_inv t0 /\ bc_to_id t0 = bc /\ len_linker t0 = ll /\
  len_primer t0 = lp /\
  forall p b, dict_get (Automaton.words (automaton t0)) p = Some b ->
              In p (yields (get_mismatches b 1)).
Proof.
  intros (max_mm & use_stats & warned & t & before & rs & Hinit & Hruns).
  destruct (tagger_after_reads _ _ _ _ _ _ Hinit Hruns)
    as (Hinv & Hbc & Hll & Hlp & Haut).
  split; [exact Hinv|]. split; [exact Hbc|]. split; [exact Hll|].
  split; [exact Hlp|].
  destruct (ReadTagger_init_ok _ _ _ _ _ Hinit) as (_ & _ & _ & _ & _ & Hres).
  rewrite Haut. intros p b. eapply final_map_generated, Hres.
Qed.

Lemma scenario_tagger_in_use :
  in_use [(py "AAAA", py "BC1")] 2 4 scenario_tagger.
Proof.
  exists 1, true, [], scenario_tagger, [], [].
  split; [exact scenario_tagger_built|reflexivity].
Qed.

(** The primary match is a window of the read that is a stored pattern. *)
Lemma primary_match_window (t : ReadTagger) (s : str) (bs be : Z) (b : str) :
  tagger_inv t -> primary_match t s = Some (bs, be, b) ->
  0 <= bs < be /\ be <= len s /\ be - bs = len b /\
  dict_get (Automaton.words (automaton t)) (slice s (Some bs) (Some be))
  = Some b.
Proof.
  intros Hinv Hm. apply primary_match_In in Hm.
  apply in_search_barcode in Hm; [|exact Hinv].
  destruct Hm as (s0 & e0 & b0 & Heq & Hse & Hget).
  inversion Heq; subst; clear Heq.
  destruct (tinv_words Hinv _ Hget) as [_ Hlen].
  rewrite window_length in Hlen by lia.
  rewrite slice_between by lia.
  replace (Z.to_nat (Z.of_nat e0 + 1) - Z.to_nat (Z.of_nat s0))%nat
    with (e0 + 1 - s0)%nat by lia.
  rewrite Nat2Z.id. unfold len. rewrite <- Hlen.
  repeat split; try lia. exact Hget.
Qed.

(** X9. The barcode field of a tagged read is [None] exactly when the
    read has no match; otherwise it is the identifier that [bc_to_id]
    gives for the barcode of the primary match, which is one of its
    keys. *)
Theorem barcode_field_of_match (bc : dict str) (ll lp : Z)
  (t0 t' : ReadTagger) (h s q : str) (r : TaggedRead) :
  in_use bc ll lp t0 ->
  tag_read t0 h s q = Ok (r, t') ->
  (barcode r = None <-> primary_match t0 s = None) /\
  forall start end_ b, primary_match t0 s = Some (start, end_, b) ->
    exists id_, dict_get bc b = Some id_ /\ barcode r = Some id_.
Proof.
  intros Huse Hrun.
  destruct (in_use_inv Huse) as (Hinv & Hbc & _).
  apply tag_read_fields in Hrun. destruct Hrun as (_ & _ & _ & Hf).
  destruct (primary_match t0 s) as [[[bs be] b]|] eqn:Hm.
  - destruct Hf as (_ & Hb & _).
    destruct (primary_match_bounds _ Hinv Hm) as (_ & _ & Hkey).
    apply dict_key_get in Hkey. destruct Hkey as [id_ Hid].
    rewrite Hid in Hb. rewrite Hbc in Hid. split.
    + rewrite Hb. split; discriminate.
    + intros start end_ b' H. inversion H; subst. eauto.
  - destruct Hf as (_ & Hb & _). split; [tauto|]. intros; discriminate.
Qed.

Lemma barcode_field_of_match_witness :
  barcode (fst scenario_tagged) = None <->
  primary_match scenario_tagger (py "GGAAAACCGGTT") = None.
Proof.
  exact (proj1 (@barcode_field_of_match _ 2 4 scenario_tagger
                  (snd scenario_tagged) (py "@r") (py "GGAAAACCGGTT")
                  (py "IIIIIIIIIIII") (fst scenario_tagged)
                  scenario_tagger_in_use scenario_tagged_run)).
Defined.

(** X10. The region of the read that the primary match covers is yielded
    by the expansion of the matched barcode with budget 1: it is the
    barcode itself or differs from it in one position; it has the length
    of the barcode, and the mismatch flag is False exactly when it is the
    barcode. *)
Theorem matched_region_is_pattern (bc : dict str) (ll lp : Z)
  (t0 t' : ReadTagger) (h s q : str) (r : TaggedRead)
  (start end_ : Z) (b : str) :
  in_use bc ll lp t0 ->
  tag_read t0 h s q = Ok (r, t') ->
  primary_match t0 s = Some (start, end_, b) ->
  In (slice s (Some start) (Some end_)) (yields (get_mismatches b 1)) /\
  end_ - start = len b /\
  len (slice s (Some start) (Some end_)) = len b /\
  (barcode_mismatch r = false <-> slice s (Some start) (Some end_) = b).
Proof.
  intros Huse Hrun Hm.
  destruct (in_use_inv Huse) as (Hinv & _ & _ & _ & Hgen).
  destruct (primary_match_window _ Hinv Hm) as (Hs & He & Hlen & Hget).
  split; [apply Hgen, Hget|]. split; [exact Hlen|]. split.
  - destruct (tinv_words Hinv _ Hget) as [_ H]. unfold len. f_equal. exact H.
  - apply tag_read_fields in Hrun. rewrite Hm in Hrun.
    destruct Hrun as (_ & _ & _ & _ & _ & _ & _ & Hmm). rewrite Hmm.
    rewrite negb_false_iff. apply str_eqb_eq.
Qed.

Lemma matched_region_is_pattern_witness :
  In (slice (py "GGAAAACCGGTT") (Some 1) (Some 5))
    (yields (get_mismatches (py "AAAA") 1)).
Proof.
  refine (proj1 (@matched_region_is_pattern _ 2 4 scenario_tagger
                   (snd scenario_tagged) (py "@r") (py "GGAAAACCGGTT")
                   (py "IIIIIIIIIIII") (fst scenario_tagged) 1 5 (py "AAAA")
                   scenario_tagger_in_use scenario_tagged_run _)).
  vm_compute. reflexivity.
Defined.

(** ** Junk, linker and amplicon *)

(** X12. The junk of a tagged read is never the empty string: it is
    [None] when the primary match starts the read, and otherwise the
    non-empty part of the read before the match. *)
Theorem junk_is_before_match (bc : dict str) (ll lp : Z)
  (t0 t' : ReadTagger) (h s q : str) (r : TaggedRead) :
  in_use bc ll lp t0 ->
  tag_read t0 h s q = Ok (r, t') ->
  junk r <> Some [] /\
  match primary_match t0 s with
  | Some (start, _, _) =>
      (junk r = None <-> start = 0) /\
      (0 < start -> junk r = Some (slice s None (Some start)) /\
                    len (slice s None (Some start)) = start)
  | None => junk r = None
  end.
Proof.
  intros Huse Hrun.
  destruct (in_use_inv Huse) as (Hinv & _).
  apply tag_read_fields in Hrun. destruct Hrun as (_ & _ & _ & Hf).
  destruct (primary_match t0 s) as [[[bs be] b]|] eqn:Hm.
  - destruct Hf as (Hj & _).
    destruct (primary_match_bounds _ Hinv Hm) as (Hbs & Hbe & _).
    rewrite Hj, slice_to by lia.
    assert (Hlen : length (firstn (Z.to_nat bs) s) = Z.to_nat bs).
    { rewrite length_firstn. unfold len in Hbe. lia. }
    destruct (firstn (Z.to_nat bs) s) as [|c j] eqn:E; simpl in Hlen |- *.
    + split; [discriminate|]. split; [split; [lia|reflexivity]|lia].
    + split; [discriminate|]. split; [split; [discriminate|lia]|].
      intros _. split; [reflexivity|]. unfold len. simpl. lia.
  - destruct Hf as (Hj & _). rewrite Hj. split; [discriminate|reflexivity].
Qed.

Lemma junk_is_before_match_witness :
  junk (fst scenario_tagged) <> Some [].
Proof.
  exact (proj1 (@junk_is_before_match _ 2 4 scenario_tagger
                  (snd scenario_tagged) (py "@r") (py "GGAAAACCGGTT")
                  (py "IIIIIIIIIIII") (fst scenario_tagged)
                  scenario_tagger_in_use scenario_tagged_run)).
Defined.

(** X13. With a linker length that is not negative, the linker of a read
    with a match ending at [end] is the part of the read from [end] on,
    clipped to the read: its length is the smaller of the linker length
    and what is left of the read, and the amplicon has the length of what
    is left after it, if anything. *)
Theorem linker_is_clipped (bc : dict str) (ll lp : Z)
  (t0 t' : ReadTagger) (h s q : str) (r : TaggedRead)
  (start end_ : Z) (b : str) :
  in_use bc ll lp t0 ->
  0 <= ll ->
  tag_read t0 h s q = Ok (r, t') ->
  primary_match t0 s = Some (start, end_, b) ->
  linker r = Some (slice s (Some end_) (Some (end_ + ll))) /\
  len (or_empty (linker r)) = Z.min ll (len s - end_) /\
  len (amplicon r) = Z.max 0 (len s - end_ - ll).
Proof.
  intros Huse Hll Hrun Hm.
  destruct (in_use_inv Huse) as (Hinv & _ & Hlen & _).
  destruct (primary_match_bounds _ Hinv Hm) as (Hbs & Hbe & _).
  rewrite <- Hlen in Hll |- *.
  destruct (segments_found _ _ _ Hinv Hll Hrun Hm) as (_ & _ & Hl & Ha).
  apply tag_read_fields in Hrun. rewrite Hm in Hrun.
  destruct Hrun as (_ & _ & _ & _ & _ & Hlk & _).
  assert (E : (end_ =? 0) = false) by (apply Z.eqb_neq; lia).
  rewrite E in Hlk. split; [exact Hlk|].
  rewrite Hl, Ha. unfold len in *.
  rewrite length_firstn, !length_skipn. lia.
Qed.

Lemma linker_is_clipped_witness :
  len (or_empty (linker (fst scenario_tagged)))
  = Z.min 2 (len (py "GGAAAACCGGTT") - 5).
Proof.
  assert (H2 : 0 <= 2) by lia.
  refine (proj1 (proj2 (@linker_is_clipped _ 2 4 scenario_tagger
                   (snd scenario_tagged) (py "@r") (py "GGAAAACCGGTT")
                   (py "IIIIIIIIIIII") (fst scenario_tagged) 1 5 (py "AAAA")
                   scenario_tagger_in_use H2 scenario_tagged_run _))).
  vm_compute. reflexivity.
Defined.

(** ** The other barcodes *)

Lemma str_mem_In (x : str) (s : list str) : str_mem x s = true <-> In x s.
Proof.
  unfold str_mem. rewrite existsb_exists. split.
  - intros (y & Hy & E). apply str_eqb_eq in E. subst. exact Hy.
  - intros H. exists x. split; [exact H|apply str_eqb_refl].
Qed.

Lemma str_set_add_spec (x : str) (s : list str) :
  (forall y, In y (str_set_add x s) <-> y = x \/ In y s) /\
  (NoDup s -> NoDup (str_set_add x s)).
Proof.
  unfold str_set_add. destruct (str_mem x s) eqn:E.
  - apply str_mem_In in E. split; [|auto].
    intros y. split; [auto|]. intros [->|H]; assumption.
  - assert (Hnin : ~ In x s).
    { intros H. apply str_mem_In in H. congruence. }
    split.
    + intros y. rewrite in_app_iff. simpl. intuition congruence.
    + intros Hnd. apply NoDup_app; [exact Hnd|repeat constructor; intros []|].
      intros y Hy [<-|[]]. contradiction.
Qed.

Lemma ids_of_spec (bc : dict str) (ms : list match_t) (acc ids : list str) :
  ids_of bc ms acc = Ok ids ->
  (forall id_, In id_ ids <->
     In id_ acc \/
     exists m, In m ms /\ dict_get bc (snd m) = Some id_) /\
  (NoDup acc -> NoDup ids).
Proof.
  revert acc. induction ms as [|[[s e] b] ms IH]; intros acc; simpl.
  - intros H; inversion H; subst. split; [|auto].
    intros id_. split; [auto|]. intros [H0|(m & [] & _)]. exact H0.
  - unfold dict_getitem. destruct (dict_get bc b) as [v|] eqn:Ev;
      cbn [bind]; [|discriminate].
    intros H. destruct (IH _ H) as [Hin Hnd].
    destruct (str_set_add_spec v acc) as [Hadd Hadd_nd]. split.
    + intros id_. rewrite Hin, Hadd. split.
      * intros [[->|Hacc]|(m & Hm & Hget)].
        -- right. exists (s, e, b). split; [left; reflexivity|exact Ev].
        -- left. exact Hacc.
        -- right. exists m. split; [right; exact Hm|exact Hget].
      * intros [Hacc|(m & [<-|Hm] & Hget)].
        -- left. right. exact Hacc.
        -- left. left. simpl in Hget. congruence.
        -- right. exists m. split; assumption.
    + intros Hacc. apply Hnd, Hadd_nd, Hacc.
Qed.

Lemma tag_read_other_barcodes (t t' : ReadTagger) (h s q : str)
  (r : TaggedRead) :
  tag_read t h s q = Ok (r, t') ->
  exists ids,
    ids_of (bc_to_id t) (tl (matches_of t s)) [] = Ok ids /\
    other_barcodes r = str_set_remove ids (barcode r).
Proof.
  unfold tag_read. destruct (search_barcode_stop t s); [discriminate|].
  destruct (ids_of (bc_to_id t) (tl (matches_of t s)) []) as [ids|e] eqn:Eids;
    cbn [bind]; [|discriminate].
  exists ids. split; [reflexivity|].
  destruct (hd_error (matches_of t s)) as [[[bs be] b]|];
    destruct (stats t) as [st|];
    try (destruct (count_preds _ _ st); cbn [bind]; [|discriminate]);
    inversion H; subst; reflexivity.
Qed.

(** X14. The other barcodes of a tagged read are the identifiers of the
    matches after the primary one, without the identifier of the primary
    match and each once. *)
Theorem other_barcodes_of_matches (bc : dict str) (ll lp : Z)
  (t0 t' : ReadTagger) (h s q : str) (r : TaggedRead) :
  in_use bc ll lp t0 ->
  tag_read t0 h s q = Ok (r, t') ->
  NoDup (other_barcodes r) /\
  forall id_,
    In id_ (other_barcodes r) <->
    barcode r <> Some id_ /\
    exists m, In m (tl (matches_of t0 s)) /\ dict_get bc (snd m) = Some id_.
Proof.
  intros Huse Hrun.
  destruct (in_use_inv Huse) as (_ & Hbc & _).
  destruct (tag_read_other_barcodes _ _ _ _ Hrun) as (ids & Hids & Hother).
  rewrite Hbc in Hids.
  destruct (ids_of_spec _ _ _ Hids) as [Hin Hnd].
  specialize (Hnd (NoDup_nil _)). rewrite Hother.
  unfold str_set_remove. destruct (barcode r) as [x|].
  - split; [apply NoDup_filter, Hnd|].
    intros id_. rewrite filter_In, Hin, negb_true_iff, str_eqb_neq.
    simpl. split.
    + intros [[[]|H] Hne]. split; [congruence|exact H].
    + intros [Hne H]. split; [right; exact H|congruence].
  - split; [exact Hnd|]. intros id_. rewrite Hin. simpl. split.
    + intros [[]|H]. split; [discriminate|exact H].
    + intros [_ H]. right. exact H.
Qed.

Lemma two_tagger_in_use :
  in_use [(py "AC", py "X"); (py "ACGT", py "Y")] 0 0 two_tagger.
Proof.
  exists 1, true, [], two_tagger, [], [].
  split; [vm_compute|]; reflexivity.
Qed.

Lemma two_tagged_run :
  tag_read two_tagger (py "@r") (py "TACGT") (py "IIIII")
  = Ok (fst two_tagged, snd two_tagged).
Proof. vm_compute. reflexivity. Qed.

Example two_tagged_other_barcodes :
  barcode (fst two_tagged) = Some (py "X") /\
  other_barcodes (fst two_tagged) = [py "Y"].
Proof. split; reflexivity. Qed.

Lemma other_barcodes_of_matches_witness :
  NoDup (other_barcodes (fst two_tagged)) /\
  (In (py "Y") (other_barcodes (fst two_tagged)) <->
   barcode (fst two_tagged) <> Some (py "Y") /\
   exists m, In m (tl (matches_of two_tagger (py "TACGT"))) /\
     dict_get [(py "AC", py "X"); (py "ACGT", py "Y")] (snd m)
     = Some (py "Y")).
Proof.
  pose proof (@other_barcodes_of_matches _ 0 0 two_tagger (snd two_tagged)
                (py "@r") (py "TACGT") (py "IIIII") (fst two_tagged)
                two_tagger_in_use two_tagged_run) as [Hnd Hin].
  split; [exact Hnd|exact (Hin (py "Y"))].
Defined.

(** ** What the counters count *)

Ltac eval_str_eqb :=
  repeat match goal with
  | |- context [str_eqb ?a ?b] =>
      let v := eval vm_compute in (str_eqb a b) in
      match v with
      | true => change (str_eqb a b) with true
      | false => change (str_eqb a b) with false
      end
  end.

Lemma hits_of_pred (r : TaggedRead) (name : string)
  (pred : TaggedRead -> bool) :
  In (py name, pred) PREDS ->
  hits PREDS r (py name) = if pred r then 1 else 0.
Proof.
  unfold PREDS. intros H.
  repeat (destruct H as [H|H];
          [injection H as Hname Hpred; rewrite <- Hname, <- Hpred;
           cbn [hits]; eval_str_eqb; cbn [andb];
           match goal with
           | |- context [if ?c then 1 else 0] => destruct c
           end; reflexivity|]).
  contradiction.
Qed.

Lemma count_reads_cons (pred : TaggedRead -> bool) (r : TaggedRead)
  (rs : list TaggedRead) :
  count_reads pred (r :: rs)
  = (if pred r then 1 else 0) + count_reads pred rs.
Proof.
  unfold count_reads. simpl filter. destruct (pred r); simpl length; lia.
Qed.

Lemma tag_reads_count (t t' : ReadTagger) (reads : list (str * str * str))
  (rs : list TaggedRead) (st : dict Z) :
  tagger_inv t -> stats t = Some st ->
  tag_reads t reads = Ok (rs, t') ->
  length rs = length reads /\
  forall name pred, In (py name, pred) PREDS ->
    stat t' name = stat t name + count_reads pred rs.
Proof.
  revert t rs st. induction reads as [|[[h s] q] reads IH];
    intros t rs st Hinv Hst.
  - simpl. intros H; inversion H; subst. split; [reflexivity|].
    intros name pred _. unfold count_reads. simpl. lia.
  - simpl tag_reads.
    destruct (tag_read t h s q) as [[r t1]|e] eqn:Hrun; cbn [bind];
      [|discriminate].
    destruct (tag_reads t1 reads) as [[rs1 t2]|e] eqn:Hruns; cbn [bind];
      [|discriminate].
    intros H; inversion H; subst rs t'; clear H.
    destruct (tag_read_ok _ _ _ Hinv Hrun)
      as (Hinv1 & _ & _ & _ & _ & _ & Hstats).
    rewrite Hst in Hstats. destruct Hstats as (st1 & Hst1 & Hstep).
    destruct (IH t1 rs1 st1 Hinv1 Hst1 Hruns) as (Hlen & Hcount).
    split; [simpl; congruence|].
    intros name pred Hin. rewrite (Hcount _ _ Hin), count_reads_cons.
    rewrite (@stat_step t t1 st st1 r name Hst Hst1); [| |exact Hstep].
    + rewrite (@hits_of_pred r name pred Hin). lia.
    + eapply (tinv_stats Hinv); [exact Hst|].
      change (py name) with (fst (py name, pred)). apply in_map, Hin.
Qed.

(** X8. Each counter of the statistics counts the reads that satisfy its
    predicate: after a fresh tagger with statistics has tagged a sequence
    of reads, one tagged read is returned per read, and the counter of
    every entry of [PREDS] is the number of the tagged reads for which
    the predicate of the entry holds. *)
Theorem counters_count_their_predicate (bc : dict str) (ll lp max_mm : Z)
  (warned : list warning) (t t' : ReadTagger)
  (reads : list (str * str * str)) (rs : list TaggedRead) :
  ReadTagger_init bc ll lp max_mm true = (warned, Ok t) ->
  tag_reads t reads = Ok (rs, t') ->
  length rs = length reads /\
  forall name pred, In (py name, pred) PREDS ->
    stat t' name = count_reads pred rs.
Proof.
  intros Hinit Hruns.
  destruct (ReadTagger_init_ok _ _ _ _ _ Hinit)
    as (Hinv & _ & _ & _ & Hst & _).
  destruct (@tag_reads_count t t' reads rs initial_stats Hinv Hst Hruns)
    as (Hlen & Hcount).
  split; [exact Hlen|].
  intros name pred Hin. rewrite (Hcount _ _ Hin).
  assert (H0 : stat t name = 0); [|lia].
  unfold stat. rewrite Hst. unfold PREDS in Hin.
  repeat (destruct Hin as [Hin|Hin];
          [injection Hin as Hname Hpred; rewrite <- Hname; reflexivity|]).
  contradiction.
Qed.

Lemma counters_count_their_predicate_witness :
  length [fst scenario_tagged] = 1%nat /\
  forall name pred, In (py name, pred) PREDS ->
    stat (snd scenario_tagged) name = count_reads pred [fst scenario_tagged].
Proof.
  refine (@counters_count_their_predicate _ 2 4 1 [] scenario_tagger
            (snd scenario_tagged)
            [(py "@r", py "GGAAAACCGGTT", py "IIIIIIIIIIII")]
            [fst scenario_tagged] scenario_tagger_built _).
  vm_compute. reflexivity.
Defined.

Lemma tag_read_stat (t t' : ReadTagger) (h s q : str) (r : TaggedRead)
  (st : dict Z) (name : string) (pred : TaggedRead -> bool) :
  tagger_inv t -> stats t = Some st ->
  tag_read t h s q = Ok (r, t') ->
  In (py name, pred) PREDS ->
  stat t' name = stat t name + (if pred r then 1 else 0).
Proof.
  intros Hinv Hst Hrun Hin.
  destruct (tag_read_ok _ _ _ Hinv Hrun) as (_ & _ & _ & _ & _ & _ & Hstats).
  rewrite Hst in Hstats. destruct Hstats as (st1 & Hst1 & Hstep).
  rewrite (@stat_step t t' st st1 r name Hst Hst1); [| |exact Hstep].
  - rewrite (@hits_of_pred r name pred Hin). reflexivity.
  - eapply (tinv_stats Hinv); [exact Hst|].
    change (py name) with (fst (py name, pred)). apply in_map, Hin.
Qed.

(** X11. A read without any match is returned whole by a tagger whose
    automaton holds a word: the tagged read has no junk, no barcode and no
    linker, the read as amplicon, no other barcodes and the mismatch flag
    False; of the statistics only [n_no_barcode] grows, by one. *)
Theorem unmatched_read_counts_no_barcode (bc : dict str) (ll lp : Z)
  (t0 : ReadTagger) (st : dict Z) (h s q : str) :
  in_use bc ll lp t0 ->
  Automaton.has_word (automaton t0) = true ->
  stats t0 = Some st ->
  primary_match t0 s = None ->
  exists t',
    tag_read t0 h s q
    = Ok ({| header := h; qual := q; tr_len_primer := lp;
             junk := None; barcode := None; linker := None;
             amplicon := s; other_barcodes := [];
             barcode_mismatch := false |}, t') /\
    stat t' "n_no_barcode" = stat t0 "n_no_barcode" + 1 /\
    stat t' "n_only_primer" = stat t0 "n_only_primer" /\
    stat t' "n_multiple_bcs" = stat t0 "n_multiple_bcs" /\
    stat t' "n_barcode_mismatch" = stat t0 "n_barcode_mismatch" /\
    stat t' "n_junk" = stat t0 "n_junk" /\
    stat t' "n_regular" = stat t0 "n_regular".
Proof.
  intros Huse Hword Hst Hm.
  destruct (in_use_inv Huse) as (Hinv & _ & _ & Hlp & _).
  destruct (tag_read_total h s q Hinv Hword) as (r & t' & Hrun & _).
  pose proof (tag_read_fields _ _ _ _ Hrun) as Hf. rewrite Hm in Hf.
  destruct Hf as (Hh & Hq & Hp & Hj & Hb & Hl & Ha & Hmm & Ho).
  assert (Hr : r = {| header := h; qual := q; tr_len_primer := lp;
                      junk := None; barcode := None; linker := None;
                      amplicon := s; other_barcodes := [];
                      barcode_mismatch := false |}).
  { destruct r; simpl in *; subst. reflexivity. }
  subst r. exists t'. split; [exact Hrun|].
  assert (Hstep : forall name pred, In (py name, pred) PREDS ->
            stat t' name = stat t0 name +
              (if pred {| header := h; qual := q; tr_len_primer := lp;
                          junk := None; barcode := None; linker := None;
                          amplicon := s; other_barcodes := [];
                          barcode_mismatch := false |} then 1 else 0))
    by (intros name pred;
        apply (@tag_read_stat t0 t' h s q _ st name pred Hinv Hst Hrun)).
  repeat split;
    match goal with
    | |- stat t' ?name = _ =>
        erewrite (Hstep name) by (unfold PREDS; simpl; auto 10);
        cbv beta; simpl; lia
    end.
Qed.

Lemma unmatched_read_counts_no_barcode_witness :
  exists t',
    tag_read scenario_tagger (py "@r") (py "GGCC") (py "IIII")
    = Ok ({| header := py "@r"; qual := py "IIII"; tr_len_primer := 4;
             junk := None; barcode := None; linker := None;
             amplicon := py "GGCC"; other_barcodes := [];
             barcode_mismatch := false |}, t') /\
    stat t' "n_no_barcode" = stat scenario_tagger "n_no_barcode" + 1 /\
    stat t' "n_only_primer" = stat scenario_tagger "n_only_primer" /\
    stat t' "n_multiple_bcs" = stat scenario_tagger "n_multiple_bcs" /\
    stat t' "n_barcode_mismatch" = stat scenario_tagger "n_barcode_mismatch" /\
    stat t' "n_junk" = stat scenario_tagger "n_junk" /\
    stat t' "n_regular" = stat scenario_tagger "n_regular".
Proof.
  refine (@unmatched_read_counts_no_barcode _ 2 4 scenario_tagger
            initial_stats (py "@r") (py "GGCC") (py "IIII")
            scenario_tagger_in_use _ _ _).
  - reflexivity.
  - vm_compute. reflexivity.
  - vm_compute. reflexivity.
Defined.

(** ** cut_seq *)

(** X15. For a read without match, [cut_seq] returns a quality string of
    the length of the read whole. *)
Theorem cut_seq_unmatched (bc : dict str) (ll lp : Z)
  (t0 t' : ReadTagger) (h s q : str) (r : TaggedRead) :
  in_use bc ll lp t0 ->
  tag_read t0 h s q = Ok (r, t') ->
  primary_match t0 s = None ->
  len q = len s ->
  cut_seq r q = q.
Proof.
  intros Huse Hrun Hm Hlen.
  apply tag_read_fields in Hrun. rewrite Hm in Hrun.
  destruct Hrun as (_ & _ & _ & Hj & Hb & _ & Ha & _).
  unfold cut_seq. rewrite Hj, Hb, Ha. cbn [or_empty].
  change (len []) with 0. rewrite !Z.add_0_l.
  rewrite slice_between by (unfold len; lia).
  change (Z.to_nat 0) with 0%nat. rewrite Nat.sub_0_r.
  change (skipn 0 q) with q.
  apply firstn_all2. unfold len in *. lia.
Qed.

Lemma cut_seq_unmatched_witness :
  cut_seq {| header := py "@r"; qual := py "IIII"; tr_len_primer := 4;
             junk := None; barcode := None; linker := None;
             amplicon := py "GGCC"; other_barcodes := [];
             barcode_mismatch := false |} (py "IIII") = py "IIII".
Proof.
  refine (@cut_seq_unmatched _ 2 4 scenario_tagger
            (with_stats scenario_tagger
               (Some [(py "n_only_primer", 0); (py "n_multiple_bcs", 0);
                      (py "n_no_barcode", 1); (py "n_regular", 0);
                      (py "n_barcode_mismatch", 0); (py "n_junk", 0)]))
            (py "@r") (py "GGCC") (py "IIII") _
            scenario_tagger_in_use _ _ _).
  - vm_compute. reflexivity.
  - vm_compute. reflexivity.
  - reflexivity.
Defined.

(** X16. For a read with a match at [start, end) and the identifier [id_]
    in its barcode field, [cut_seq] cuts the quality string from
    [start + len(id_)] on, over the length of the amplicon. This is the
    quality of the amplicon when the identifier is as long as the matched
    barcode and the linker together. The linker length is not negative
    and the quality string is as long as the read. *)
Theorem cut_seq_matched (bc : dict str) (ll lp : Z)
  (t0 t' : ReadTagger) (h s q : str) (r : TaggedRead)
  (start end_ : Z) (b id_ : str) :
  in_use bc ll lp t0 ->
  0 <= ll ->
  tag_read t0 h s q = Ok (r, t') ->
  primary_match t0 s = Some (start, end_, b) ->
  barcode r = Some id_ ->
  len q = len s ->
  cut_seq r q
  = slice q (Some (start + len id_))
      (Some (start + len id_ + len (amplicon r))) /\
  (len id_ = (end_ - start) + len (or_empty (linker r)) ->
   cut_seq r q = slice q (Some (end_ + ll)) None).
Proof.
  intros Huse Hll Hrun Hm Hb Hlen.
  destruct (in_use_inv Huse) as (Hinv & _ & Hl & _).
  destruct (primary_match_bounds _ Hinv Hm) as (Hbs & Hbe & _).
  rewrite <- Hl in Hll |- *.
  destruct (segments_found _ _ _ Hinv Hll Hrun Hm) as (Hj & _ & Hlk & Ha).
  assert (Hjl : len (or_empty (junk r)) = start).
  { rewrite Hj. unfold len in *. rewrite length_firstn. lia. }
  assert (Hcut : cut_seq r q
                 = slice q (Some (start + len id_))
                     (Some (start + len id_ + len (amplicon r)))).
  { unfold cut_seq. rewrite Hjl, Hb. reflexivity. }
  split; [exact Hcut|].
  intros Hid. rewrite Hcut.
  assert (Hlkl : len (or_empty (linker r))
                 = Z.min (len_linker t0) (len s - end_)).
  { rewrite Hlk. unfold len in *. rewrite length_firstn, length_skipn. lia. }
  assert (Hal : len (amplicon r) = Z.max 0 (len s - end_ - len_linker t0)).
  { rewrite Ha. unfold len in *. rewrite length_skipn. lia. }
  assert (0 <= len id_) by (unfold len; lia).
  rewrite slice_between, slice_from by lia.
  rewrite Hid, Hlkl, Hal. unfold len in *.
  destruct (Z_le_gt_dec (end_ + len_linker t0) (Z.of_nat (length s)))
    as [Hle|Hgt].
  - replace (Z.to_nat (start + (end_ - start
               + Z.min (len_linker t0) (Z.of_nat (length s) - end_))))
      with (Z.to_nat (end_ + len_linker t0)) by lia.
    apply firstn_all2. rewrite length_skipn. lia.
  - rewrite (skipn_all2 q (n := Z.to_nat (end_ + len_linker t0))) by lia.
    rewrite skipn_all2 by lia. apply firstn_nil.
Qed.

Lemma cut_seq_matched_witness :
  cut_seq (fst scenario_tagged) (py "IIIIIIIIIIII")
  = slice (py "IIIIIIIIIIII") (Some (1 + len (py "BC1")))
      (Some (1 + len (py "BC1") + len (amplicon (fst scenario_tagged)))).
Proof.
  assert (H2 : 0 <= 2) by lia.
  refine (proj1 (@cut_seq_matched _ 2 4 scenario_tagger
                   (snd scenario_tagged) (py "@r") (py "GGAAAACCGGTT")
                   (py "IIIIIIIIIIII") (fst scenario_tagged) 1 5
                   (py "AAAA") (py "BC1")
                   scenario_tagger_in_use H2 scenario_tagged_run _ _ _)).
  - vm_compute. reflexivity.
  - reflexivity.
  - reflexivity.
Defined.

(** ** __str__ *)

Lemma split_one_line (a : str) : no_newline a -> split newline a = [a].
Proof.
  unfold no_newline. induction a as [|c a IH]; intros H; [reflexivity|].
  simpl split. destruct (Ascii.eqb c newline) eqn:E.
  - apply Ascii.eqb_eq in E. subst c. exfalso. apply H. left; reflexivity.
  - rewrite IH; [reflexivity|]. intros Hin. apply H. right; exact Hin.
Qed.

Lemma split_first_line (a rest : str) :
  no_newline a ->
  split newline (a ++ newline :: rest) = a :: split newline rest.
Proof.
  unfold no_newline. induction a as [|c a IH]; intros H.
  - reflexivity.
  - simpl app. simpl split. destruct (Ascii.eqb c newline) eqn:E.
    + apply Ascii.eqb_eq in E. subst c. exfalso. apply H. left; reflexivity.
    + rewrite IH; [reflexivity|]. intros Hin. apply H. right; exact Hin.
Qed.

Lemma In_firstn {A} (n : nat) (l : list A) (x : A) :
  In x (firstn n l) -> In x l.
Proof.
  intros H. rewrite <- (firstn_skipn n l). apply in_or_app. left. exact H.
Qed.

Lemma In_skipn {A} (n : nat) (l : list A) (x : A) :
  In x (skipn n l) -> In x l.
Proof.
  intros H. rewrite <- (firstn_skipn n l). apply in_or_app. right. exact H.
Qed.

Lemma In_slice (s : str) (lo hi : option Z) (c : ascii) :
  In c (slice s lo hi) -> In c s.
Proof.
  unfold slice. intros H. apply In_firstn, In_skipn in H. exact H.
Qed.

Lemma no_newline_app (a b : str) :
  no_newline a -> no_newline b -> no_newline (a ++ b).
Proof.
  unfold no_newline. intros Ha Hb H. apply in_app_or in H. tauto.
Qed.

Lemma no_newline_py_bool (b : bool) : no_newline (str_of_bool b).
Proof.
  unfold no_newline. destruct b; simpl; intuition discriminate.
Qed.

Lemma no_newline_option (o : option str) :
  (forall x, o = Some x -> no_newline x) -> no_newline (str_of_option o).
Proof.
  destruct o as [x|]; simpl; intros H; [apply H; reflexivity|].
  unfold no_newline. simpl. intuition discriminate.
Qed.

Lemma no_newline_join (l : list str) :
  Forall no_newline l -> no_newline (join (py ",") l).
Proof.
  induction l as [|x l IH]; intros H; [intros []|].
  inversion H as [|? ? Hx Hl]; subst. specialize (IH Hl).
  destruct l as [|y l]; [exact Hx|].
  change (join (py ",") (x :: y :: l))
    with (x ++ py "," ++ join (py ",") (y :: l)).
  apply no_newline_app; [exact Hx|]. apply no_newline_app; [|exact IH].
  unfold no_newline. simpl. intuition discriminate.
Qed.

Lemma no_newline_or_none (s : str) :
  no_newline s -> forall x, or_none s = Some x -> no_newline x.
Proof.
  intros H x. destruct s; simpl; [discriminate|].
  intros E; inversion E; subst. exact H.
Qed.

(** The strings of a tagged read come from the read and from the
    identifiers. *)
Lemma tagged_read_strings (bc : dict str) (ll lp : Z)
  (t0 t' : ReadTagger) (h s q : str) (r : TaggedRead) (P : str -> Prop) :
  in_use bc ll lp t0 ->
  tag_read t0 h s q = Ok (r, t') ->
  (forall lo hi, P (slice s lo hi)) -> P s ->
  (forall b id_, dict_get bc b = Some id_ -> P id_) ->
  (forall x, junk r = Some x -> P x) /\
  (forall x, linker r = Some x -> P x) /\
  (forall x, barcode r = Some x -> P x) /\
  P (amplicon r) /\ Forall P (other_barcodes r).
Proof.
  intros Huse Hrun Hslice Hs Hid.
  destruct (in_use_inv Huse) as (_ & Hbc & _).
  destruct (tag_read_other_barcodes _ _ _ _ Hrun) as (ids & Hids & Hother).
  rewrite Hbc in Hids. destruct (ids_of_spec _ _ _ Hids) as [Hin _].
  assert (Hothers : Forall P (other_barcodes r)).
  { apply Forall_forall. intros x Hx. rewrite Hother in Hx.
    assert (Hx' : In x ids).
    { unfold str_set_remove in Hx. destruct (barcode r); [|exact Hx].
      apply filter_In in Hx. tauto. }
    apply Hin in Hx'. destruct Hx' as [[]|(m & _ & Hget)].
    eapply Hid, Hget. }
  apply tag_read_fields in Hrun. destruct Hrun as (_ & _ & _ & Hf).
  rewrite Hbc in Hf.
  destruct (primary_match t0 s) as [[[bs be] b]|].
  - destruct Hf as (Hj & Hb & Hl & Ha & _).
    rewrite Hj, Hb, Hl, Ha. repeat split; try assumption; try apply Hslice.
    + intros x Hx. destruct (slice s None (Some bs)) eqn:E; [discriminate|].
      simpl in Hx. inversion Hx; subst. rewrite <- E. apply Hslice.
    + intros x Hx. inversion Hx; subst. apply Hslice.
    + intros x Hx. eapply Hid, Hx.
  - destruct Hf as (Hj & Hb & Hl & Ha & _).
    rewrite Hj, Hb, Hl, Ha. repeat split; try assumption; intros; discriminate.
Qed.

(** X17. Printing a tagged read gives a record of four lines, when the
    header, the read, the quality string and the identifiers each are of
    one line: the line of the header and the annotations, the amplicon,
    a plus sign, and the quality string cut by [cut_seq]; the record ends
    with a newline. *)
Theorem str_is_four_lines (bc : dict str) (ll lp : Z)
  (t0 t' : ReadTagger) (h s q : str) (r : TaggedRead) :
  in_use bc ll lp t0 ->
  tag_read t0 h s q = Ok (r, t') ->
  no_newline h -> no_newline s -> no_newline q ->
  (forall b id_, dict_get bc b = Some id_ -> no_newline id_) ->
  split newline (TaggedRead_str r)
  = [info_line r; amplicon r; py "+"; cut_seq r q; []].
Proof.
  intros Huse Hrun Hh Hs Hq Hid.
  destruct (@tagged_read_strings bc ll lp t0 t' h s q r no_newline Huse Hrun)
    as (Hj & Hl & Hb & Ha & Ho); try assumption.
  { intros lo hi Hin. apply In_slice in Hin. contradiction. }
  pose proof (tag_read_fields _ _ _ _ Hrun) as (Hhd & Hql & _).
  assert (Hinfo : no_newline (info_line r)).
  { unfold info_line. rewrite Hhd.
    repeat (apply no_newline_app;
            [first [ exact Hh
                   | apply no_newline_py_bool
                   | apply no_newline_option; assumption
                   | apply no_newline_option, no_newline_or_none,
                       no_newline_join, Ho
                   | unfold no_newline; simpl; intuition discriminate ]|]).
    apply no_newline_option; assumption. }
  unfold TaggedRead_str. rewrite Hql.
  change (info_line r ++ [newline] ++ ?x) with (info_line r ++ newline :: x).
  rewrite split_first_line by exact Hinfo.
  change (amplicon r ++ [newline] ++ ?x) with (amplicon r ++ newline :: x).
  rewrite split_first_line by exact Ha.
  change (py "+" ++ [newline] ++ ?x) with (py "+" ++ newline :: x).
  rewrite split_first_line by (unfold no_newline; simpl; intuition discriminate).
  change (cut_seq r q ++ [newline]) with (cut_seq r q ++ newline :: []).
  rewrite split_first_line; [reflexivity|].
  unfold cut_seq. intros Hin. apply In_slice in Hin. contradiction.
Qed.

Lemma str_is_four_lines_witness :
  split newline (TaggedRead_str (fst scenario_tagged))
  = [info_line (fst scenario_tagged); amplicon (fst scenario_tagged);
     py "+"; cut_seq (fst scenario_tagged) (py "IIIIIIIIIIII"); []].
Proof.
  refine (@str_is_four_lines _ 2 4 scenario_tagger (snd scenario_tagged)
            (py "@r") (py "GGAAAACCGGTT") (py "IIIIIIIIIIII")
            (fst scenario_tagged)
            scenario_tagger_in_use scenario_tagged_run _ _ _ _).
  - unfold no_newline. simpl. intuition discriminate.
  - unfold no_newline. simpl. intuition discriminate.
  - unfold no_newline. simpl. intuition discriminate.
  - intros b id_ H. cbn [dict_get] in H.
    destruct (str_eqb (py "AAAA") b); [|discriminate].
    injection H as <-. unfold no_newline. simpl. intuition discriminate.
Defined.

Example str_of_scenario3 :
  TaggedRead_str (fst scenario_tagged)
  = py "@r barcode=BC1 linker=AC multi-bc=False just-primer=False other-bcs=None barcode-mismatch=True junk=G"
    ++ [newline] ++ py "CGGTT" ++ [newline] ++ py "+" ++ [newline]
    ++ py "IIIII" ++ [newline].
Proof. vm_compute. reflexivity. Qed.

(** ** Just-primer and regular reads *)

(** X18. A read with a match ending at [end] is just-primer exactly when
    at most [len_primer] characters follow the linker window, and, when
    its identifier is not the empty string, regular exactly when more
    do. Both lengths are not negative. *)
Theorem just_primer_iff_short (bc : dict str) (ll lp : Z)
  (t0 t' : ReadTagger) (h s q : str) (r : TaggedRead)
  (start end_ : Z) (b : str) :
  in_use bc ll lp t0 ->
  0 <= ll -> 0 <= lp ->
  tag_read t0 h s q = Ok (r, t') ->
  primary_match t0 s = Some (start, end_, b) ->
  (is_just_primer r = true <-> len s - end_ - ll <= lp) /\
  (barcode r <> Some [] ->
   (is_regular r = true <-> lp < len s - end_ - ll)).
Proof.
  intros Huse Hll Hlp Hrun Hm.
  destruct (in_use_inv Huse) as (Hinv & _ & Hl & Hp & _).
  destruct (primary_match_bounds _ Hinv Hm) as (Hbs & Hbe & Hkey).
  rewrite <- Hl in Hll.
  destruct (segments_found _ _ _ Hinv Hll Hrun Hm) as (_ & _ & _ & Ha).
  assert (Hal : len (amplicon r) = Z.max 0 (len s - end_ - len_linker t0)).
  { rewrite Ha. unfold len in *. rewrite length_skipn. lia. }
  apply tag_read_fields in Hrun. rewrite Hm in Hrun.
  destruct Hrun as (_ & _ & Hlen & _ & Hb & _).
  apply dict_key_get in Hkey. destruct Hkey as [id_ Hid].
  rewrite Hid in Hb. rewrite Hl in Hal. rewrite Hp in Hlen.
  unfold is_regular, is_just_primer. rewrite Hb, Hlen, Hal. split.
  - rewrite Z.leb_le. lia.
  - intros Hne. destruct id_ as [|c id_];
      [exfalso; apply Hne; reflexivity|].
    cbn [truthy andb]. rewrite negb_true_iff, Z.leb_gt. lia.
Qed.

Lemma just_primer_iff_short_witness :
  is_just_primer (fst scenario_tagged) = true <->
  len (py "GGAAAACCGGTT") - 5 - 2 <= 4.
Proof.
  assert (H2 : 0 <= 2) by lia. assert (H4 : 0 <= 4) by lia.
  refine (proj1 (@just_primer_iff_short _ 2 4 scenario_tagger
                   (snd scenario_tagged) (py "@r") (py "GGAAAACCGGTT")
                   (py "IIIIIIIIIIII") (fst scenario_tagged) 1 5 (py "AAAA")
                   scenario_tagger_in_use H2 H4 scenario_tagged_run _)).
  vm_compute. reflexivity.
Defined.

(** ** The statistics do not influence tagging *)

Lemma tag_read_same_result (t1 t2 t1' t2' : ReadTagger) (h s q : str)
  (r1 r2 : TaggedRead) :
  bc_to_id t2 = bc_to_id t1 -> automaton t2 = automaton t1 ->
  len_linker t2 = len_linker t1 -> len_primer t2 = len_primer t1 ->
  tag_read t1 h s q = Ok (r1, t1') ->
  tag_read t2 h s q = Ok (r2, t2') ->
  r1 = r2.
Proof.
  intros Hbc Haut Hll Hlp.
  unfold tag_read, matches_of, search_barcode, search_barcode_stop.
  rewrite Hbc, Haut, Hll, Hlp.
  destruct (stop (Automaton.iter (automaton t1) s)); [discriminate|].
  destruct (ids_of _ _ _) as [ids|e]; cbn [bind]; [|discriminate].
  match goal with
  | |- context [hd_error ?l] => destruct (hd_error l) as [[[bs be] b]|]
  end;
    destruct (stats t1) as [st1|]; destruct (stats t2) as [st2|];
    repeat match goal with
           | |- context [count_preds PREDS ?r ?st] =>
               destruct (count_preds PREDS r st); cbn [bind]
           end;
    intros H1 H2; try discriminate;
    injection H1 as <- _; injection H2 as <- _; reflexivity.
Qed.

(** X19. What a tagger has tagged before does not influence how it tags a
    read: a fresh tagger and the same tagger after any sequence of reads
    return the same tagged read for the same header, read and quality
    string. *)
Theorem tagging_is_history_independent (bc : dict str) (ll lp max_mm : Z)
  (use_stats : bool) (warned : list warning) (t t0 t1 t2 : ReadTagger)
  (before : list (str * str * str)) (rs : list TaggedRead)
  (h s q : str) (r1 r2 : TaggedRead) :
  ReadTagger_init bc ll lp max_mm use_stats = (warned, Ok t) ->
  tag_reads t before = Ok (rs, t0) ->
  tag_read t h s q = Ok (r1, t1) ->
  tag_read t0 h s q = Ok (r2, t2) ->
  r1 = r2.
Proof.
  intros Hinit Hbefore H1 H2.
  destruct (ReadTagger_init_ok _ _ _ _ _ Hinit) as (_ & Hbc & Hll & Hlp & _).
  destruct (tagger_after_reads _ _ _ _ _ _ Hinit Hbefore)
    as (_ & Hbc0 & Hll0 & Hlp0 & Haut0).
  eapply (@tag_read_same_result t t0); try eassumption; congruence.
Qed.

Lemma second_read_fresh_run :
  tag_read scenario_tagger (py "@s") (py "TTTAAAAGG") (py "IIIIIIIII")
  = Ok (fst second_read_fresh, snd second_read_fresh).
Proof. vm_compute. reflexivity. Qed.

Lemma second_read_later_run :
  tag_read (snd scenario_tagged) (py "@s") (py "TTTAAAAGG") (py "IIIIIIIII")
  = Ok (fst second_read_later, snd second_read_later).
Proof. vm_compute. reflexivity. Qed.

Example second_read_later_stats_differ :
  snd second_read_fresh <> snd second_read_later.
Proof. vm_compute. discriminate. Qed.

Lemma tagging_is_history_independent_witness :
  fst second_read_fresh = fst second_read_later.
Proof.
  refine (@tagging_is_history_independent
            [(py "AAAA", py "BC1")] 2 4 1 true [] scenario_tagger
            (snd scenario_tagged) (snd second_read_fresh)
            (snd second_read_later)
            [(py "@r", py "GGAAAACCGGTT", py "IIIIIIIIIIII")]
            [fst scenario_tagged]
            (py "@s") (py "TTTAAAAGG") (py "IIIIIIIII")
            (fst second_read_fresh) (fst second_read_later)
            scenario_tagger_built _ second_read_fresh_run
            second_read_later_run).
  vm_compute. reflexivity.
Defined.
